(** * book-ai: the reader backend, embedded and checked against its specification

    The development follows the Python sources of the backend:
    - [app/services/tts_service.py]  ([TTSService._clean_text],
      [TTSService.is_available], [TTSService.text_to_speech]);
    - [app/routes/tts.py]            ([generate_tts]);
    - [app/services/book_service.py] ([BookService._process_pdf]);
    - [app/routes/books.py]          ([upload_book], [get_book_content],
      [update_reading_position]);
    - [app/routes/highlights.py]     ([get_book_highlights],
      [get_all_highlights], [delete_highlight]);
    - [app/services/database.py]     (the tables).

    Python values are modelled as follows: a [str] is the list of its code
    points, [bytes] a list of bytes, an exception is a value of [exn] and a
    [try]/[except] chain is the function that maps the raised exception to
    what the handler raises or returns.  Calls that leave the repository
    (the synthesis engine, the PDF and UUID parsers, the database driver)
    are fields of an interface record or variables of a section. *)

From stdpp Require Import base decidable option numbers list sorting gmap strings.
From Stdlib Require Import Ascii QArith.

Local Open Scope nat_scope.

(** ** Python strings *)

Module PyStr.

(** A character is its Unicode code point. *)
Definition char := N.
Definition str := list N.

Definition SPACE : char := 32%N.
Definition NEWLINE : char := 10%N.
Definition TAB : char := 9%N.
Definition DOT : char := 46%N.

(** [str.isspace] on one character, which is also what [\s] matches in a
    [re] pattern over [str] and what [str.strip()] removes. *)
Definition isspace (c : char) : bool :=
  ((9 <=? c) && (c <=? 13) || (28 <=? c) && (c <=? 32)
   || (c =? 133) || (c =? 160) || (c =? 5760)
   || (8192 <=? c) && (c <=? 8202)
   || (c =? 8232) || (c =? 8233) || (c =? 8239) || (c =? 8287)
   || (c =? 12288))%N.

Fixpoint lstrip (s : str) : str :=
  match s with
  | c :: s' => if isspace c then lstrip s' else s
  | [] => []
  end.

Definition rstrip (s : str) : str := reverse (lstrip (reverse s)).

(** A string that is empty or starts with a visible character. *)
Definition no_lead (s : str) : Prop :=
  match s with
  | c :: _ => isspace c = false
  | [] => True
  end.

(** [s.strip()] *)
Definition strip (s : str) : str := rstrip (lstrip s).

(** [re.sub(r'\s+', ' ', s)]: every maximal run of whitespace becomes one
    space.  [in_run] tells that the previous character was whitespace. *)
Fixpoint sub_ws (in_run : bool) (s : str) : str :=
  match s with
  | [] => []
  | c :: s' =>
      if isspace c
      then (if in_run then sub_ws true s' else SPACE :: sub_ws true s')
      else c :: sub_ws false s'
  end.

Definition re_sub_ws (s : str) : str := sub_ws false s.

(** [s.replace(a, b)] for one-character [a] and [b]. *)
Definition replace (a b : char) (s : str) : str :=
  map (fun c => if (c =? a)%N then b else c) s.

(** [s.split(sep)] for a one-character separator; never the empty list. *)
Fixpoint split (sep : char) (s : str) : list str :=
  match s with
  | [] => [[]]
  | c :: s' =>
      if (c =? sep)%N then [] :: split sep s'
      else match split sep s' with
           | p :: ps => (c :: p) :: ps
           | [] => [[c]]
           end
  end.

(** [sep.join(l)] for a one-character separator. *)
Fixpoint join (sep : char) (l : list str) : str :=
  match l with
  | [] => []
  | [p] => p
  | p :: ps => p ++ sep :: join sep ps
  end.

(** [s.split()]: the maximal runs of non-whitespace characters. *)
Fixpoint words_aux (cur : str) (s : str) : list str :=
  match s with
  | [] => match cur with [] => [] | _ => [reverse cur] end
  | c :: s' =>
      if isspace c
      then match cur with
           | [] => words_aux [] s'
           | _ => reverse cur :: words_aux [] s'
           end
      else words_aux (c :: cur) s'
  end.

Definition split_ws (s : str) : list str := words_aux [] s.

(** [s.lower()] on the ASCII letters; the other characters are kept. *)
Definition lower_char (c : char) : char :=
  if ((65 <=? c) && (c <=? 90))%N then (c + 32)%N else c.

Definition lower (s : str) : str := map lower_char s.

(** The code points of a literal. *)
Fixpoint of_string (s : string) : str :=
  match s with
  | EmptyString => []
  | String a s' => N_of_ascii a :: of_string s'
  end.

(** Truthiness of a [str]: non-empty. *)
Definition truthy (s : str) : bool :=
  match s with [] => false | _ => true end.

End PyStr.

Import PyStr.

(** ** [TTSService._clean_text] *)

Module CleanText.

Definition max_length : nat := 500.

(** The [for sentence in sentences] loop with its [break]:
    [result] grows by [sentence + "."] while [len(result + sentence)]
    stays under the bound. *)
Fixpoint accumulate (bound : nat) (result : str) (sentences : list str) : str :=
  match sentences with
  | [] => result
  | sentence :: rest =>
      if length (result ++ sentence) <? bound
      then accumulate bound (result ++ sentence ++ [DOT]) rest
      else result
  end.

(** The first [k] sentences, each closed by its full stop: what the loop
    has appended after [k] rounds. *)
Definition dotted (k : nat) (sentences : list str) : str :=
  concat ((λ sentence, sentence ++ [DOT]) <$> take k sentences).

(** The first three statements: the whitespace normalisation. *)
Definition normalise (text : str) : str :=
  replace TAB SPACE (replace NEWLINE SPACE (re_sub_ws text)).

(** The body of [if len(text) > max_length]. *)
Definition limit (text : str) : str :=
  let sentences := split DOT text in
  let result := accumulate max_length [] sentences in
  if truthy (strip result) then strip result else take max_length text.

Definition _clean_text (text : str) : str :=
  let text := normalise text in
  let text := if max_length <? length text then limit text else text in
  strip text.

End CleanText.

Import CleanText.

(** ** Exceptions, the external capabilities and the shared state *)

Module Py.

Definition bytes := list Byte.byte.

(** The exceptions the modelled code can see.  All of them are subclasses
    of [Exception]; [HTTPException] is FastAPI's, which is neither a
    [ValueError] nor a parent of one. *)
Inductive exn : Type :=
| ValueError (msg : string)
| AttributeError (msg : string)
| HTTPException (status_code : Z) (detail : string)
| RuntimeError (msg : string).

(** The status a client sees: 200 for a returned value, the code of a
    raised [HTTPException], 500 for anything else that escapes a route. *)
Definition status_of {A} (r : exn + A) : Z :=
  match r with
  | inr _ => 200
  | inl (HTTPException code _) => code
  | inl _ => 500
  end.

End Py.

Import Py.

Definition UUID := N.
Definition Timestamp := Z.

(** A position is a JSON object; only its identity matters here. *)
Definition Position := list (string * Z).

(** The optional [tortoise]/[torch] dependency of [tts_service.py]. *)
Class Tortoise := {
  (** the loaded [TextToSpeech] model, with whatever state it carries *)
  TextToSpeech : Type;
  Sample : Type;
  Temperature : Type;
  (** the default [temperature: float = 0.7] *)
  default_temperature : Temperature;
  (** the module global set by the guarded import *)
  TORTOISE_AVAILABLE : bool;
  (** [tortoise.utils.text.split_and_recombine_text] *)
  split_and_recombine_text : str → exn + list str;
  (** [self.tts.tts_with_preset(chunk, preset=.., k=1, temperature=..)]
      followed by [.squeeze(0).cpu()] *)
  tts_with_preset :
    TextToSpeech → str → str → Temperature → (exn + list Sample) * TextToSpeech;
  (** [torchaudio.save(buffer, tensor, sample_rate, format="wav")] and
      [buffer.getvalue()] *)
  torchaudio_save : list Sample → Z → exn + bytes;
}.

(** What the routes take from the Python library and the database driver. *)
Class Platform := {
  (** [uuid.UUID(s)]; [None] stands for the [ValueError] it raises *)
  uuid_UUID : str → option UUID;
  (** [str(u)] for a [UUID] *)
  uuid_str : UUID → str;
  (** what [database.execute] returns for an UPDATE or DELETE that matched
      the given number of rows ([None] for a driver that returns nothing) *)
  execute_result : nat → option Z;
  (** whether the attribute [func] exists on the [databases.Database]
      object the routes import as [database] *)
  database_has_func : bool;
}.

(** *** The tables of [database.py] *)

Record Chapter := {
  ch_id : str;
  ch_title : str;
  ch_content : str;
  ch_word_count : nat;
}.

Record Page := {
  page_number : nat;
  content : str;
  word_count : nat;
}.

(** The [metadata] JSON column; an absent key reads as the empty list, as
    [metadata.get(key, [])] does. *)
Record Metadata := {
  chapters : list Chapter;
  pages : list Page;
  total_words : nat;
}.

Record BookRow := {
  title : str;
  author : str;
  file_path : str;
  file_type : str;
  file_size : Z;
  cover_image : option str;
  upload_date : Timestamp;
  last_read : option Timestamp;
  current_position : option Position;
  metadata : option Metadata;
}.

(** Rows of [highlights]; every insert of the routes leaves [created_at] to
    the column default [func.now()]. *)
Record HighlightRow := {
  id : UUID;
  book_id : UUID;
  text_content : str;
  start_position : Position;
  end_position : Position;
  color : str;
  note : option str;
  created_at : Timestamp;
}.

Record CacheRow := {
  text_hash : str;
  voice : str;
  preset : str;
  audio_file_path : str;
  cache_created_at : Timestamp;
  last_accessed : Timestamp;
}.

Record Database := {
  books : gmap UUID BookRow;
  highlights : list HighlightRow;
  tts_cache : list CacheRow;
  (** the clock [func.now()] reads *)
  now : Timestamp;
}.

(** [TTSService]: [tts] is [None] until the model is loaded. *)
Record TTSService `{Tortoise} := {
  tts : option TextToSpeech;
  available_voices : list str;
}.

(** One call of the synthesis adapter: the chunk and the preset. *)
Definition AdapterCall : Type := str * str.

(** Everything a request can read or change.  [tts_module] is the outcome of
    [from app.services.tts_service import tts_service]; [adapter_calls]
    records the calls of [tts_with_preset] in the order they are made. *)
Record World `{Tortoise} := {
  database : Database;
  tts_module : exn + TTSService;
  adapter_calls : list AdapterCall;
}.

(** ** Computations over the shared state that may raise *)

Section Monad.
Context `{Tortoise}.

Definition M (A : Type) : Type := World → (exn + A) * World.

Definition ret {A} (a : A) : M A := λ w, (inr a, w).

Definition raise {A} (e : exn) : M A := λ w, (inl e, w).

Definition bind {A B} (m : M A) (k : A → M B) : M B :=
  λ w, match m w with
       | (inl e, w') => (inl e, w')
       | (inr a, w') => k a w'
       end.

(** [try: m  except ...: h e] *)
Definition try_except {A} (m : M A) (h : exn → M A) : M A :=
  λ w, match m w with
       | (inl e, w') => h e w'
       | (inr a, w') => (inr a, w')
       end.

(** A call that cannot touch the shared state. *)
Definition lift {A} (r : exn + A) : M A := λ w, (r, w).

Definition get_database : M Database := λ w, (inr (database w), w).

Definition put_database (d : Database) : M unit :=
  λ w, (inr tt, {| database := d; tts_module := tts_module w;
                   adapter_calls := adapter_calls w |}).

(** A computation that leaves the database as it found it. *)
Definition keeps_database {A} (m : M A) : Prop :=
  ∀ w, database (m w).2 = database w.

End Monad.

Notation "x <~ m ; k" := (bind m (λ x, k))
  (at level 20, m at level 100, k at level 200, only parsing).

(** ** [tts_service.py]: the service *)

Section TTSService.
Context `{Tortoise}.

(** [TTSService.is_available] *)
Definition is_available (self : TTSService) : bool :=
  TORTOISE_AVAILABLE && bool_decide (is_Some (tts self)).

(** [TTSService._audio_to_bytes] *)
Definition _audio_to_bytes (audio_tensor : list Sample) : exn + bytes :=
  if negb TORTOISE_AVAILABLE then inr []
  else torchaudio_save audio_tensor 24000.

(** [self.tts.tts_with_preset(...)] on the service object of the world; the
    call is recorded, and the model keeps the state the call leaves. *)
Definition call_tts_with_preset (chunk preset : str) (temperature : Temperature)
  : M (list Sample) :=
  λ w, match tts_module w with
       | inr self =>
           match tts self with
           | Some model =>
               let '(gen, model') := tts_with_preset model chunk preset temperature in
               (gen, {| database := database w;
                        tts_module :=
                          inr {| tts := Some model';
                                 available_voices := available_voices self |};
                        adapter_calls := adapter_calls w ++ [(chunk, preset)] |})
           | None => (inl (AttributeError "tts_with_preset"), w)
           end
       | inl _ => (inl (AttributeError "tts_with_preset"), w)
       end.

(** The [for chunk in text_chunks] loop. *)
Fixpoint synthesise_chunks (text_chunks : list str) (preset : str)
    (temperature : Temperature) (audio_chunks : list (list Sample))
  : M (list (list Sample)) :=
  match text_chunks with
  | [] => ret audio_chunks
  | chunk :: rest =>
      if negb (truthy (strip chunk))
      then synthesise_chunks rest preset temperature audio_chunks
      else gen <~ call_tts_with_preset chunk preset temperature ;
           synthesise_chunks rest preset temperature (audio_chunks ++ [gen])
  end.

(** The body of the [try] of [text_to_speech]. *)
Definition text_to_speech_try (text voice preset : str) (temperature : Temperature)
  : M (option bytes) :=
  let text := _clean_text text in
  if negb (truthy (strip text)) then ret None
  else
    text_chunks <~ lift (split_and_recombine_text text) ;
    audio_chunks <~ synthesise_chunks text_chunks preset temperature [] ;
    match audio_chunks with
    | [] => ret None
    | _ =>
        let final_audio :=
          match audio_chunks with
          | [only] => only
          | _ => concat audio_chunks       (* torch.cat(.., dim=-1) *)
          end in
        audio_bytes <~ lift (_audio_to_bytes final_audio) ;
        ret (Some audio_bytes)
    end.

(** [TTSService.text_to_speech] *)
Definition text_to_speech (self : TTSService) (text voice preset : str)
    (temperature : Temperature) : M (option bytes) :=
  if negb (is_available self) then ret None
  else try_except (text_to_speech_try text voice preset temperature)
                  (λ _, ret None).

End TTSService.

(** ** [routes/tts.py] *)

Section TTSRoute.
Context `{Tortoise}.

Record TTSRequest := {
  request_text : str;
  request_voice : str;
  request_preset : str;
}.

(** [get_tts_service]: the imported service, or [None] when the import
    raised. *)
Definition get_tts_service : M (option TTSService) :=
  λ w, match tts_module w with
       | inr service => (inr (Some service), w)
       | inl _ => (inr None, w)
       end.

(** The guard of [generate_tts] read off the world: the service was
    imported and [is_available()] holds. *)
Definition service_available (w : World) : bool :=
  match tts_module w with
  | inr service => is_available service
  | inl _ => false
  end.

(** [not audio_bytes] *)
Definition no_audio (audio_bytes : option bytes) : bool :=
  match audio_bytes with
  | None | Some [] => true
  | Some _ => false
  end.

Definition generate_tts_try (request : TTSRequest) : M bytes :=
  tts_service <~ get_tts_service ;
  match tts_service with
  | None => raise (HTTPException 503 "TTS service not available")
  | Some tts_service =>
      if negb (is_available tts_service)
      then raise (HTTPException 503 "TTS service not available")
      else if length (strip (request_text request)) =? 0
      then raise (HTTPException 400 "Text cannot be empty")
      else if 1000 <? length (request_text request)
      then raise (HTTPException 400 "Text too long (max 1000 characters)")
      else
        audio_bytes <~ text_to_speech tts_service (request_text request)
                         (request_voice request) (request_preset request)
                         default_temperature ;
        if no_audio audio_bytes
        then raise (HTTPException 500 "Failed to generate audio")
        else ret (default [] audio_bytes)
  end.

(** [generate_tts], with its two handlers. *)
Definition generate_tts (request : TTSRequest) : M bytes :=
  try_except (generate_tts_try request)
    (λ e, match e with
          | HTTPException _ _ => raise e
          | _ => raise (HTTPException 500 "Internal server error during TTS generation")
          end).

End TTSRoute.

(** ** [services/book_service.py] *)

(** What [PyPDF2.PdfReader] yields: the document information and the text
    [extract_text()] gives for each page object, in document order. *)
Record PdfDocument := {
  info_title : option str;
  info_author : option str;
  page_texts : list str;
}.

(** The dictionary [process_uploaded_file] returns. *)
Record BookData := {
  data_id : UUID;
  data_title : str;
  data_author : str;
  data_file_path : str;
  data_file_type : str;
  data_file_size : Z;
  data_cover_image : option str;
  data_metadata : Metadata;
}.

(** The parsers and the file store behind [BookService]. *)
Class Readers := {
  (** [uuid.uuid4()] for the upload that finds the given table *)
  uuid4 : gmap UUID BookRow → UUID;
  (** [PyPDF2.PdfReader(file)] with the page texts extracted; a failure of
      the library carries its message *)
  PdfReader : bytes → string + PdfDocument;
  (** the title, author, cover and retained chapters [_process_epub] takes
      out of the container with [ebooklib] and [BeautifulSoup] *)
  read_epub : bytes → str → string + (str * str * option str * list Chapter);
}.

Module BookService.
Section BookService.
Context `{Readers} `{Platform}.

(** The [for page_num, page in enumerate(pdf_reader.pages)] loop of
    [_process_pdf]; [page_num] is the index [enumerate] has reached. *)
Fixpoint collect_pages (page_num : nat) (texts : list str) : list Page :=
  match texts with
  | [] => []
  | text :: rest =>
      if truthy (strip text)
      then {| page_number := page_num + 1;
              content := text;
              word_count := length (split_ws text) |}
           :: collect_pages (S page_num) rest
      else collect_pages (S page_num) rest
  end.

Definition or_default (field : option str) (default : str) : str :=
  match field with
  | Some s => if truthy s then s else default
  | None => default
  end.

(** [BookService._process_pdf], from the parsed document on. *)
Definition _process_pdf (pdf_reader : PdfDocument) (file_path original_filename : str)
    (file_id : UUID) (file_size : Z) : BookData :=
  let title := or_default (info_title pdf_reader) original_filename in
  let author := or_default (info_author pdf_reader) (of_string "Unknown Author") in
  let pages := collect_pages 0 (page_texts pdf_reader) in
  {| data_id := file_id; data_title := title; data_author := author;
     data_file_path := file_path; data_file_type := of_string "pdf";
     data_file_size := file_size; data_cover_image := None;
     data_metadata := {| chapters := []; pages := pages;
                         total_words := sum_list (word_count <$> pages) |} |}.

(** The extension test shared by [upload_book] and
    [process_uploaded_file]: [filename.lower().split('.')[-1]]. *)
Definition file_ext (filename : str) : str :=
  List.last (split DOT (lower filename)) [].

Definition supported (ext : str) : bool :=
  bool_decide (ext = of_string "epub") || bool_decide (ext = of_string "pdf").

(** [BookService.process_uploaded_file] *)
Definition process_uploaded_file (table : gmap UUID BookRow)
    (file_content : bytes) (filename : str) : exn + BookData :=
  let file_id := uuid4 table in
  let ext := file_ext filename in
  if negb (supported ext) then inl (ValueError "Unsupported file type")
  else
    let file_path :=
      of_string "/app/uploads/" ++ uuid_str file_id ++ [DOT] ++ ext in
    let file_size := Z.of_nat (length file_content) in
    if bool_decide (ext = of_string "epub")
    then match read_epub file_content filename with
         | inl msg => inl (RuntimeError msg)
         | inr (title, author, cover, chs) =>
             inr {| data_id := file_id; data_title := title;
                    data_author := author; data_file_path := file_path;
                    data_file_type := of_string "epub";
                    data_file_size := file_size; data_cover_image := cover;
                    data_metadata :=
                      {| chapters := chs; pages := [];
                         total_words := sum_list (ch_word_count <$> chs) |} |}
         end
    else match PdfReader file_content with
         | inl msg => inl (RuntimeError msg)
         | inr doc => inr (_process_pdf doc file_path filename file_id file_size)
         end.

End BookService.
End BookService.

Import BookService.

(** ** [routes/books.py] *)

Module Books.
Section Books.
Context `{Tortoise} `{Readers} `{Platform}.

Record UploadFile := {
  filename : option str;
  file_bytes : bytes;
}.

(** The summary [upload_book] returns under ["book"]. *)
Record UploadSummary := {
  summary_id : UUID;
  summary_title : str;
  summary_author : str;
  summary_file_type : str;
  summary_chapters : nat;
  summary_pages : nat;
  summary_total_words : nat;
}.

Definition set_books (d : Database) (b : gmap UUID BookRow) : Database :=
  {| books := b; highlights := highlights d; tts_cache := tts_cache d;
     now := now d |}.

(** [books.insert().values(...)] through [database.execute]; a second
    row with the same primary key is refused by the database. *)
Definition insert_book (data : BookData) : M unit :=
  d <~ get_database ;
  match books d !! data_id data with
  | Some _ => raise (RuntimeError "duplicate key")
  | None =>
      put_database
        (set_books d
           (<[data_id data :=
                {| title := data_title data; author := data_author data;
                   file_path := data_file_path data;
                   file_type := data_file_type data;
                   file_size := data_file_size data;
                   cover_image := data_cover_image data;
                   upload_date := now d; last_read := None;
                   current_position := None;
                   metadata := Some (data_metadata data) |}]> (books d)))
  end.

Definition MAX_UPLOAD : Z := 100 * 1024 * 1024.

Definition upload_book_try (file : UploadFile) : M UploadSummary :=
  match filename file with
  | None => raise (HTTPException 400 "No filename provided")
  | Some name =>
      if negb (truthy name)
      then raise (HTTPException 400 "No filename provided")
      else if negb (supported (file_ext name))
      then raise (HTTPException 400 "Only EPUB and PDF files are supported")
      else
        let content := file_bytes file in
        if (Z.of_nat (length content) =? 0)%Z
        then raise (HTTPException 400 "Empty file")
        else if (MAX_UPLOAD <? Z.of_nat (length content))%Z
        then raise (HTTPException 400 "File too large (max 100MB)")
        else
          d <~ get_database ;
          book_data <~ lift (process_uploaded_file (books d) content name) ;
          _ <~ insert_book book_data ;
          ret {| summary_id := data_id book_data;
                 summary_title := data_title book_data;
                 summary_author := data_author book_data;
                 summary_file_type := data_file_type book_data;
                 summary_chapters := length (chapters (data_metadata book_data));
                 summary_pages := length (pages (data_metadata book_data));
                 summary_total_words := total_words (data_metadata book_data) |}
  end.

(** [upload_book] *)
Definition upload_book (file : UploadFile) : M UploadSummary :=
  try_except (upload_book_try file)
    (λ e, match e with
          | HTTPException _ _ => raise e
          | _ => raise (HTTPException 500 "Error processing uploaded book")
          end).

(** What [get_book_content] can return. *)
Inductive BookContent : Type :=
| ChapterContent (chapter : Chapter)
| TableOfContents (entries : list (str * str * nat))
| PageContent (page_content : Page)
| PdfInfo (entries : list (nat * nat)) (total_pages : nat)
| NoContent.

Definition empty_metadata : Metadata :=
  {| chapters := []; pages := []; total_words := 0 |}.

Definition get_book_content_try (book_id : str) (chapter_id : option str)
    (page : option Z) : M BookContent :=
  match uuid_UUID book_id with
  | None => raise (ValueError "badly formed hexadecimal UUID string")
  | Some key =>
      d <~ get_database ;
      match books d !! key with
      | None => raise (HTTPException 404 "Book not found")
      | Some book_result =>
          let metadata := default empty_metadata (metadata book_result) in
          if bool_decide (file_type book_result = of_string "epub") then
            let chapters := chapters metadata in
            if truthy (default [] chapter_id) then
              match List.find (λ ch, bool_decide (ch_id ch = default [] chapter_id))
                              chapters with
              | None => raise (HTTPException 404 "Chapter not found")
              | Some chapter => ret (ChapterContent chapter)
              end
            else
              ret (TableOfContents
                     ((λ ch, (ch_id ch, ch_title ch, ch_word_count ch))
                        <$> chapters))
          else if bool_decide (file_type book_result = of_string "pdf") then
            let pages := pages metadata in
            match page with
            | Some page =>
                if ((page <? 1) || (Z.of_nat (length pages) <? page))%Z
                then raise (HTTPException 404 "Page not found")
                else
                  match pages !! Z.to_nat (page - 1) with
                  | Some page_content => ret (PageContent page_content)
                  | None => raise (RuntimeError "list index out of range")
                  end
            | None =>
                ret (PdfInfo ((λ p, (page_number p, word_count p)) <$> pages)
                             (length pages))
            end
          else ret NoContent
      end
  end.

(** [get_book_content] *)
Definition get_book_content (book_id : str) (chapter_id : option str)
    (page : option Z) : M BookContent :=
  try_except (get_book_content_try book_id chapter_id page)
    (λ e, match e with
          | ValueError _ => raise (HTTPException 400 "Invalid book ID format")
          | HTTPException _ _ => raise e
          | _ => raise (HTTPException 500 "Error fetching book content")
          end).

(** [result == 0] on what [database.execute] returned. *)
Definition is_zero (result : option Z) : bool := bool_decide (result = Some 0%Z).

(** [books.update().where(books.c.id == key).values(...)] executed. *)
Definition execute_update_book (key : UUID) (change : BookRow → BookRow)
  : M (option Z) :=
  d <~ get_database ;
  match books d !! key with
  | Some row =>
      _ <~ put_database (set_books d (<[key := change row]> (books d))) ;
      ret (execute_result 1)
  | None => ret (execute_result 0)
  end.

Definition set_position (position : Position) (at_time : Timestamp) (row : BookRow)
  : BookRow :=
  {| title := title row; author := author row; file_path := file_path row;
     file_type := file_type row; file_size := file_size row;
     cover_image := cover_image row; upload_date := upload_date row;
     last_read := Some at_time; current_position := Some position;
     metadata := metadata row |}.

(** [database.func.now()]: attribute lookup on the [Database] object. *)
Definition database_func_now : M Timestamp :=
  if database_has_func
  then (d <~ get_database ; ret (now d))
  else raise (AttributeError "'Database' object has no attribute 'func'").

Definition update_reading_position_try (book_id : str) (position : Position)
  : M unit :=
  match uuid_UUID book_id with
  | None => raise (ValueError "badly formed hexadecimal UUID string")
  | Some key =>
      at_time <~ database_func_now ;
      result <~ execute_update_book key (set_position position at_time) ;
      if is_zero result
      then raise (HTTPException 404 "Book not found")
      else ret tt
  end.

(** [update_reading_position]; it has no [except HTTPException] clause. *)
Definition update_reading_position (book_id : str) (position : Position)
  : M unit :=
  try_except (update_reading_position_try book_id position)
    (λ e, match e with
          | ValueError _ => raise (HTTPException 400 "Invalid book ID format")
          | _ => raise (HTTPException 500 "Error updating reading position")
          end).

End Books.
End Books.

(** ** [routes/highlights.py] *)

Module Highlights.
Section Highlights.
Context `{Tortoise} `{Platform}.

(** [HighlightResponse]; [created_at] keeps the timestamp whose ISO text
    the route sends. *)
Record HighlightResponse := {
  response_id : str;
  response_book_id : str;
  response_text_content : str;
  response_start_position : Position;
  response_end_position : Position;
  response_color : str;
  response_note : option str;
  response_created_at : Timestamp;
}.

Definition to_response (row : HighlightRow) : HighlightResponse :=
  {| response_id := uuid_str (id row);
     response_book_id := uuid_str (book_id row);
     response_text_content := text_content row;
     response_start_position := start_position row;
     response_end_position := end_position row;
     response_color := color row;
     response_note := note row;
     response_created_at := created_at row |}.

(** [order_by(highlights.c.created_at.asc())] and [.desc()]. *)
Definition created_asc (a b : HighlightRow) : Prop :=
  (created_at a ≤ created_at b)%Z.

Definition created_desc (a b : HighlightRow) : Prop :=
  (created_at b ≤ created_at a)%Z.

#[global] Instance created_asc_dec a b : Decision (created_asc a b).
Proof. unfold created_asc. apply _. Defined.

#[global] Instance created_desc_dec a b : Decision (created_desc a b).
Proof. unfold created_desc. apply _. Defined.

Definition get_book_highlights_try (book_id0 : str) : M (list HighlightResponse) :=
  match uuid_UUID book_id0 with
  | None => raise (ValueError "badly formed hexadecimal UUID string")
  | Some key =>
      d <~ get_database ;
      let results :=
        merge_sort created_asc
          (filter (λ row, book_id row = key) (highlights d)) in
      ret (to_response <$> results)
  end.

(** [get_book_highlights] *)
Definition get_book_highlights (book_id0 : str) : M (list HighlightResponse) :=
  try_except (get_book_highlights_try book_id0)
    (λ e, match e with
          | ValueError _ => raise (HTTPException 400 "Invalid book ID format")
          | _ => raise (HTTPException 500 "Error fetching highlights")
          end).

Definition get_all_highlights_try : M (list HighlightResponse) :=
  d <~ get_database ;
  let results := merge_sort created_desc (highlights d) in
  ret (to_response <$> results).

(** [get_all_highlights] *)
Definition get_all_highlights : M (list HighlightResponse) :=
  try_except get_all_highlights_try
    (λ _, raise (HTTPException 500 "Error fetching highlights")).

Definition set_highlights (d : Database) (rows : list HighlightRow) : Database :=
  {| books := books d; highlights := rows; tts_cache := tts_cache d;
     now := now d |}.

(** [highlights.delete().where(highlights.c.id == key)] executed. *)
Definition execute_delete_highlight (key : UUID) : M (option Z) :=
  d <~ get_database ;
  let kept := filter (λ row, id row ≠ key) (highlights d) in
  _ <~ put_database (set_highlights d kept) ;
  ret (execute_result (length (highlights d) - length kept)).

Definition delete_highlight_try (highlight_id : str) : M unit :=
  match uuid_UUID highlight_id with
  | None => raise (ValueError "badly formed hexadecimal UUID string")
  | Some key =>
      result <~ execute_delete_highlight key ;
      if Books.is_zero result
      then raise (HTTPException 404 "Highlight not found")
      else ret tt
  end.

(** [delete_highlight]; it has no [except HTTPException] clause. *)
Definition delete_highlight (highlight_id : str) : M unit :=
  try_except (delete_highlight_try highlight_id)
    (λ e, match e with
          | ValueError _ => raise (HTTPException 400 "Invalid highlight ID format")
          | _ => raise (HTTPException 500 "Error deleting highlight")
          end).

Record HighlightUpdate := {
  update_color : option str;
  update_note : option str;
}.

Definition apply_update (update : HighlightUpdate) (row : HighlightRow)
  : HighlightRow :=
  {| id := id row; book_id := book_id row; text_content := text_content row;
     start_position := start_position row; end_position := end_position row;
     color := default (color row) (update_color update);
     note := match update_note update with
             | Some n => Some n
             | None => note row
             end;
     created_at := created_at row |}.

(** [highlights.update().where(highlights.c.id == key).values(...)]. *)
Definition execute_update_highlight (key : UUID) (update : HighlightUpdate)
  : M (option Z) :=
  d <~ get_database ;
  let changed :=
    (λ row, if bool_decide (id row = key) then apply_update update row else row)
      <$> highlights d in
  _ <~ put_database (set_highlights d changed) ;
  ret (execute_result (length (filter (λ row, id row = key) (highlights d)))).

Definition update_highlight_try (highlight_id : str) (update : HighlightUpdate)
  : M HighlightResponse :=
  match update_color update, update_note update with
  | None, None => raise (HTTPException 400 "No fields to update")
  | _, _ =>
      match uuid_UUID highlight_id with
      | None => raise (ValueError "badly formed hexadecimal UUID string")
      | Some key =>
          result <~ execute_update_highlight key update ;
          if Books.is_zero result
          then raise (HTTPException 404 "Highlight not found")
          else
            d <~ get_database ;
            match List.find (λ row, bool_decide (id row = key)) (highlights d) with
            | Some updated_highlight => ret (to_response updated_highlight)
            | None => raise (AttributeError "'NoneType' object has no attribute 'id'")
            end
      end
  end.

(** [update_highlight]: the sibling route, which re-raises
    [HTTPException]. *)
Definition update_highlight (highlight_id : str) (update : HighlightUpdate)
  : M HighlightResponse :=
  try_except (update_highlight_try highlight_id update)
    (λ e, match e with
          | ValueError _ => raise (HTTPException 400 "Invalid highlight ID format")
          | HTTPException _ _ => raise e
          | _ => raise (HTTPException 500 "Error updating highlight")
          end).

End Highlights.
End Highlights.

(** ** A concrete platform to run the routes on *)

Module Fixture.

Definition hex_digit (c : char) : option N :=
  if ((48 <=? c) && (c <=? 57))%N then Some (c - 48)%N
  else if ((97 <=? c) && (c <=? 102))%N then Some (c - 87)%N
  else if ((65 <=? c) && (c <=? 70))%N then Some (c - 55)%N
  else None.

Fixpoint hex_value (acc : N) (s : str) : option N :=
  match s with
  | [] => Some acc
  | c :: s' =>
      match hex_digit c with
      | Some v => hex_value (16 * acc + v)%N s'
      | None => None
      end
  end.

(** The plain form of [uuid.UUID]: exactly 32 hexadecimal digits. *)
Definition parse_uuid (s : str) : option UUID :=
  if length s =? 32 then hex_value 0%N s else None.

Definition hex_char (v : N) : char :=
  if (v <? 10)%N then (48 + v)%N else (87 + v)%N.

Fixpoint hex_digits (width : nat) (n : N) (acc : str) : str :=
  match width with
  | 0 => acc
  | S width' => hex_digits width' (n / 16)%N (hex_char (n mod 16)%N :: acc)
  end.

Definition render_uuid (u : UUID) : str := hex_digits 32 u [].

(** A driver that reports the number of rows, and a [database] object with
    a [func] attribute. *)
Definition rowcount_platform : Platform :=
  {| uuid_UUID := parse_uuid; uuid_str := render_uuid;
     execute_result := λ n, Some (Z.of_nat n);
     database_has_func := true |}.

(** The same driver with the [Database] object of the [databases] package,
    which has no attribute [func]. *)
Definition databases_platform : Platform :=
  {| uuid_UUID := parse_uuid; uuid_str := render_uuid;
     execute_result := λ n, Some (Z.of_nat n);
     database_has_func := false |}.

(** An engine that counts the calls it served and answers every chunk with
    one sample per character. *)
Definition counting_engine : Tortoise :=
  {| TextToSpeech := nat;
     Sample := Z;
     Temperature := Q;
     default_temperature := Qmake 7 10;
     TORTOISE_AVAILABLE := true;
     split_and_recombine_text := λ text, inr [text];
     tts_with_preset := λ served chunk _ _, (inr (Z.of_N <$> chunk), S served);
     torchaudio_save := λ samples _, inr (Byte.x52 :: ((λ _, Byte.x00) <$> samples)) |}.

Definition FORM_FEED : Byte.byte := Byte.x0c.

Fixpoint pages_of_bytes (cur : str) (content : bytes) : list str :=
  match content with
  | [] => [reverse cur]
  | b :: rest =>
      if Byte.eqb b FORM_FEED
      then reverse cur :: pages_of_bytes [] rest
      else pages_of_bytes (Byte.to_N b :: cur) rest
  end.

(** A reader that takes the bytes between form feeds as the page texts. *)
Definition form_feed_readers : Readers :=
  {| uuid4 := λ table, N.of_nat (S (size table));
     PdfReader := λ content,
       inr {| info_title := None; info_author := None;
              page_texts := pages_of_bytes [] content |};
     read_epub := λ _ _, inl "not a zip file"%string |}.

Definition empty_database : Database :=
  {| books := ∅; highlights := []; tts_cache := []; now := 0%Z |}.

Definition loaded_service : @TTSService counting_engine :=
  @Build_TTSService counting_engine (Some 0) [].

(** The service imported and its model loaded. *)
Definition ready_world : @World counting_engine :=
  @Build_World counting_engine empty_database (inr loaded_service) [].

(** The import of [tts_service] raised. *)
Definition no_service_world : @World counting_engine :=
  @Build_World counting_engine empty_database
    (inl (RuntimeError "import failed")) [].

(** The service imported, but its model never loaded. *)
Definition unloaded_service : @TTSService counting_engine :=
  @Build_TTSService counting_engine None [].

Definition hello : TTSRequest :=
  {| request_text := of_string "Hello.";
     request_voice := of_string "random";
     request_preset := of_string "fast" |}.

Definition empty_request : TTSRequest :=
  {| request_text := [];
     request_voice := of_string "random";
     request_preset := of_string "fast" |}.

(** A PDF of three pages whose second page is blank. *)
Definition three_page_pdf : Books.UploadFile :=
  {| Books.filename := Some (of_string "scan.pdf");
     Books.file_bytes := [Byte.x61; FORM_FEED; Byte.x20; FORM_FEED; Byte.x62] |}.

(** One byte under a name that is just the word [pdf]. *)
Definition bare_pdf_name (b : Byte.byte) : Books.UploadFile :=
  {| Books.filename := Some (of_string "pdf"); Books.file_bytes := [b] |}.

(** The text form of a well-formed identifier no row carries. *)
Definition unknown_id : str := render_uuid 7%N.

Definition highlight_at (key book : UUID) (created : Timestamp) : HighlightRow :=
  {| id := key; book_id := book; text_content := of_string "quote";
     start_position := []; end_position := []; color := of_string "#ffff00";
     note := None; created_at := created |}.

Definition with_highlights (rows : list HighlightRow) : @World counting_engine :=
  @Build_World counting_engine
    {| books := ∅; highlights := rows; tts_cache := []; now := 0%Z |}
    (inr loaded_service) [].

(** Two highlights of book 2 and one of book 3, stored out of order. *)
Definition three_highlights : @World counting_engine :=
  with_highlights
    [highlight_at 11%N 2%N 30%Z; highlight_at 12%N 2%N 10%Z;
     highlight_at 13%N 3%N 20%Z].

End Fixture.

(** ** [routes/books.py]: listing, lookup and deletion *)

(** The file store [delete_book] cleans up in. *)
Class FileStore := {
  (** [os.path.exists(path)] *)
  os_path_exists : str → bool;
  (** [os.remove(path)], which may raise *)
  os_remove : str → exn + unit;
}.

Module BookQueries.
Section BookQueries.
Context `{Tortoise} `{Platform} `{FileStore}.

(** [BookResponse]; the dates keep the timestamps whose ISO text the route
    sends. *)
Record BookResponse := {
  resp_id : str;
  resp_title : str;
  resp_author : str;
  resp_file_type : str;
  resp_file_size : Z;
  resp_cover_image : option str;
  resp_upload_date : Timestamp;
  resp_last_read : option Timestamp;
  resp_current_position : option Position;
  resp_metadata : option Metadata;
}.

Definition to_book_response (key : UUID) (row : BookRow) : BookResponse :=
  {| resp_id := uuid_str key;
     resp_title := title row;
     resp_author := author row;
     resp_file_type := file_type row;
     resp_file_size := file_size row;
     resp_cover_image := cover_image row;
     resp_upload_date := upload_date row;
     resp_last_read := last_read row;
     resp_current_position := current_position row;
     resp_metadata := metadata row |}.

(** [order_by(books.c.upload_date.desc())] on the rows with their keys. *)
Definition upload_desc (a b : UUID * BookRow) : Prop :=
  (upload_date b.2 ≤ upload_date a.2)%Z.

#[global] Instance upload_desc_dec a b : Decision (upload_desc a b).
Proof. unfold upload_desc. apply _. Defined.

Definition get_books_try : M (list BookResponse) :=
  d <~ get_database ;
  let results := merge_sort upload_desc (map_to_list (books d)) in
  ret ((λ kv, to_book_response kv.1 kv.2) <$> results).

(** [get_books] *)
Definition get_books : M (list BookResponse) :=
  try_except get_books_try
    (λ _, raise (HTTPException 500 "Error fetching books")).

Definition get_book_try (book_id0 : str) : M BookResponse :=
  match uuid_UUID book_id0 with
  | None => raise (ValueError "badly formed hexadecimal UUID string")
  | Some key =>
      d <~ get_database ;
      match books d !! key with
      | None => raise (HTTPException 404 "Book not found")
      | Some result => ret (to_book_response key result)
      end
  end.

(** [get_book] *)
Definition get_book (book_id0 : str) : M BookResponse :=
  try_except (get_book_try book_id0)
    (λ e, match e with
          | ValueError _ => raise (HTTPException 400 "Invalid book ID format")
          | HTTPException _ _ => raise e
          | _ => raise (HTTPException 500 "Error fetching book")
          end).

(** The inner [try] of [delete_book]: remove the file if it is there; a
    failure is logged and goes no further. *)
Definition remove_file (path : str) : M unit :=
  try_except
    (if os_path_exists path then lift (os_remove path) else ret tt)
    (λ _, ret tt).

Definition delete_book_try (book_id0 : str) : M unit :=
  match uuid_UUID book_id0 with
  | None => raise (ValueError "badly formed hexadecimal UUID string")
  | Some key =>
      d <~ get_database ;
      match books d !! key with
      | None => raise (HTTPException 404 "Book not found")
      | Some book_result =>
          _ <~ put_database (Books.set_books d (delete key (books d))) ;
          _ <~ remove_file (file_path book_result) ;
          ret tt
      end
  end.

(** [delete_book] *)
Definition delete_book (book_id0 : str) : M unit :=
  try_except (delete_book_try book_id0)
    (λ e, match e with
          | ValueError _ => raise (HTTPException 400 "Invalid book ID format")
          | HTTPException _ _ => raise e
          | _ => raise (HTTPException 500 "Error deleting book")
          end).

End BookQueries.
End BookQueries.

(** ** [routes/highlights.py]: creation *)


Module HighlightWrites.
Section HighlightWrites.
Context `{Tortoise} `{Platform} `{HighlightIds}.





End HighlightWrites.
End HighlightWrites.

(** ** [tts_service.py]: the voices *)

Module Voices.
Section Voices.
Context `{Tortoise}.

Definition default_voices : list str :=
  of_string <$>
    ["angie"; "daniel"; "deniro"; "emma"; "freeman"; "geralt"; "halle";
     "jlaw"; "lj"; "mol"; "pat"; "pat2"; "rainbow"; "snakes";
     "tim_reynolds"; "tom"; "weaver"; "william"]%string.

(** What the operating system says about the voice directory:
    [get_voice_dir()], [os.path.exists], [os.listdir] and, for every entry,
    [os.path.isdir].  [inl] is an exception from any of them, [inr None] a
    directory that does not exist. *)
Definition VoiceListing : Type := exn + option (list (str * bool)).

(** The [for voice in default_voices] loop. *)
Fixpoint add_default_voices (available defaults : list str) : list str :=
  match defaults with
  | [] => available
  | voice :: rest =>
      if bool_decide (voice ∈ available)
      then add_default_voices available rest
      else add_default_voices (available ++ [voice]) rest
  end.

Definition set_voices (self : TTSService) (voices : list str) : TTSService :=
  {| tts := tts self; available_voices := voices |}.

(** [TTSService._load_available_voices] *)
Definition _load_available_voices (self : TTSService) (listing : VoiceListing)
  : TTSService :=
  match tts self with
  | None => self
  | Some _ =>
      match listing with
      | inl _ => set_voices self [of_string "random"]
      | inr entries =>
          let available :=
            match entries with
            | Some names => (filter (λ entry, entry.2 = true) names).*1
            | None => available_voices self
            end in
          set_voices self (add_default_voices available default_voices)
      end
  end.

(** [TTSService.get_available_voices] *)
Definition get_available_voices (self : TTSService) : list str :=
  available_voices self.

End Voices.
End Voices.

(** ** [routes/tts.py]: the voices route *)

Module TTSInfo.
Section TTSInfo.
Context `{Tortoise}.

Record VoicesInfo := {
  info_voices : list str;
  info_default : str;
  info_available : bool;
}.

(** [get_available_voices] of the router: its handler answers with the
    empty structure, so nothing is raised. *)
Definition get_available_voices : M VoicesInfo :=
  tts_service <~ get_tts_service ;
  match tts_service with
  | None =>
      ret {| info_voices := []; info_default := of_string "random";
             info_available := false |}
  | Some tts_service =>
      ret {| info_voices := Voices.get_available_voices tts_service;
             info_default := of_string "random";
             info_available := is_available tts_service |}
  end.

End TTSInfo.
End TTSInfo.

(** ** The synthesis loop, read as a fold over the engine *)

Module Assembly.
Section Assembly.
Context `{Tortoise}.

(** The chunks that are sent to the engine: the ones that are not blank. *)
Definition spoken (text_chunks : list str) : list str :=
  filter (λ chunk, truthy (strip chunk) = true) text_chunks.

(** The engine called on the chunks in order, each call starting from the
    state the previous one left; the first failure ends the run. *)
Fixpoint engine_run (model : TextToSpeech) (chunks : list str) (preset : str)
    (temperature : Temperature) : (exn + list (list Sample)) * TextToSpeech :=
  match chunks with
  | [] => (inr [], model)
  | chunk :: rest =>
      match tts_with_preset model chunk preset temperature with
      | (inl e, model') => (inl e, model')
      | (inr gen, model') =>
          match engine_run model' rest preset temperature with
          | (inl e, model'') => (inl e, model'')
          | (inr gens, model'') => (inr (gen :: gens), model'')
          end
      end
  end.

(** The number of engine calls a run makes: all of them, or up to and
    including the first that fails. *)
Fixpoint engine_calls (model : TextToSpeech) (chunks : list str) (preset : str)
    (temperature : Temperature) : nat :=
  match chunks with
  | [] => 0
  | chunk :: rest =>
      match tts_with_preset model chunk preset temperature with
      | (inl _, _) => 1
      | (inr _, model') => S (engine_calls model' rest preset temperature)
      end
  end.

Definition with_model (w : World) (self : TTSService) (model : TextToSpeech)
    (calls : list AdapterCall) : World :=
  {| database := database w;
     tts_module := inr {| tts := Some model;
                          available_voices := available_voices self |};
     adapter_calls := calls |}.

End Assembly.
End Assembly.

(** ** The shape of cleaned text *)

Module CleanTextShape.

(** Every whitespace character is a plain space and no two of them are
    adjacent; [after_space] tells that the character before was one. *)
Fixpoint tidy (after_space : bool) (s : str) : bool :=
  match s with
  | [] => true
  | c :: s' =>
      if isspace c
      then (c =? SPACE)%N && negb after_space && tidy true s'
      else tidy false s'
  end.

(** No whitespace at either end. *)
Definition trimmed (s : str) : Prop := no_lead s ∧ no_lead (reverse s).

End CleanTextShape.

Import CleanTextShape.

(** ** [BookService._extract_chapter_title] *)

Module Titles.

(** The parsed chapter as the function sees it: for a tag name, the text of
    the first element with that tag, if there is one. *)
Definition Soup : Type := string → option str.

(** [heading and heading.get_text().strip()] *)
Definition heading_text (soup : Soup) (tag : string) : option str :=
  match soup tag with
  | Some text => if truthy (strip text) then Some (strip text) else None
  | None => None
  end.

(** The [for tag in ['h1', 'h2', 'h3']] loop. *)
Fixpoint first_heading (soup : Soup) (tags : list string) : option str :=
  match tags with
  | [] => None
  | tag :: rest =>
      match heading_text soup tag with
      | Some text => Some text
      | None => first_heading soup rest
      end
  end.

Definition _extract_chapter_title (soup : Soup) : str :=
  match first_heading soup ["h1"; "h2"; "h3"]%string with
  | Some text => text
  | None =>
      match heading_text soup "strong" with
      | Some text => text
      | None => of_string "Untitled Chapter"
      end
  end.

End Titles.

(** ** More concrete platforms *)

Module Scenario.

Import Fixture.

Definition BAR : char := 124%N.
Definition BANG : char := 33%N.

(** An engine whose splitter cuts at [|] and whose model refuses a chunk
    that starts with [!]; it counts the calls it served. *)
Definition splitting_engine : Tortoise :=
  {| TextToSpeech := nat;
     Sample := Z;
     Temperature := Q;
     default_temperature := Qmake 7 10;
     TORTOISE_AVAILABLE := true;
     split_and_recombine_text := λ text, inr (split BAR text);
     tts_with_preset := λ served chunk _ _,
       match chunk with
       | c :: _ =>
           if (c =? BANG)%N then (inl (RuntimeError "engine"), S served)
           else (inr (Z.of_N <$> chunk), S served)
       | [] => (inr [], S served)
       end;
     torchaudio_save := λ samples _,
       inr (Byte.x52 :: ((λ _, Byte.x00) <$> samples)) |}.

Definition splitting_service : @TTSService splitting_engine :=
  @Build_TTSService splitting_engine (Some 0) [].

Definition splitting_world : @World splitting_engine :=
  @Build_World splitting_engine empty_database (inr splitting_service) [].

(** A file store in which nothing can be removed. *)
Definition locked_files : FileStore :=
  {| os_path_exists := λ _, true;
     os_remove := λ _, inl (RuntimeError "Permission denied") |}.


(** The world after the three-page PDF was uploaded. *)
Definition one_book_world : @World counting_engine :=
  (@Books.upload_book counting_engine form_feed_readers rowcount_platform
     three_page_pdf ready_world).2.


End Scenario.

Module VoiceScenario.

Import Fixture.

(** A voice directory with a custom voice, a stray file and one of the
    stock voices. *)
Definition listing : Voices.VoiceListing :=
  inr (Some [(of_string "custom", true); (of_string "readme.txt", false);
             (of_string "emma", true)]).

End VoiceScenario.

Module ContentScenario.

Import Fixture.

Definition chapter (key title : string) : Chapter :=
  {| ch_id := of_string key; ch_title := of_string title;
     ch_content := of_string "text"; ch_word_count := 1 |}.

Definition novel : BookRow :=
  {| title := of_string "Novel"; author := of_string "Unknown Author";
     file_path := of_string "/app/uploads/novel.epub";
     file_type := of_string "epub"; file_size := 4;
     cover_image := None; upload_date := 5%Z; last_read := None;
     current_position := None;
     metadata := Some {| chapters := [chapter "c1" "One"; chapter "c2" "Two"];
                         pages := []; total_words := 2 |} |}.

(** A library that holds the one EPUB under identifier 9. *)
Definition novel_world : @World counting_engine :=
  @Build_World counting_engine
    {| books := {[ 9%N := novel ]}; highlights := []; tts_cache := [];
       now := 6%Z |}
    (inr loaded_service) [].

End ContentScenario.

Module TitleScenario.

(** A chapter whose [h1] is blank and whose [h2] reads [ Two ]. *)
Definition blank_h1 : Titles.Soup :=
  λ tag, if String.eqb tag "h1" then Some (of_string "   ")
         else if String.eqb tag "h2" then Some (of_string " Two ")
         else None.

(** A chapter with a first-level heading and a second-level one. *)
Definition titled : Titles.Soup :=
  λ tag, if String.eqb tag "h1" then Some (of_string " One ")
         else if String.eqb tag "h2" then Some (of_string "Two")
         else None.


End TitleScenario.
(** * Properties *)

(** ** Strings *)

Module PyStrFacts.

Lemma lstrip_suffix s : ∃ k, s = k ++ lstrip s.
Proof.
  induction s as [|c s IH]; simpl.
  - by exists [].
  - destruct (isspace c).
    + destruct IH as [k Hk]. exists (c :: k). simpl. by f_equal.
    + by exists [].
Qed.

Lemma length_lstrip s : length (lstrip s) ≤ length s.
Proof.
  destruct (lstrip_suffix s) as [k Hk].
  rewrite Hk at 2. rewrite length_app. lia.
Qed.

Lemma rstrip_prefix s : ∃ k, s = rstrip s ++ k.
Proof.
  unfold rstrip. destruct (lstrip_suffix (reverse s)) as [k Hk].
  exists (reverse k).
  rewrite <- reverse_app, <- Hk. by rewrite reverse_involutive.
Qed.

Lemma length_rstrip s : length (rstrip s) ≤ length s.
Proof.
  destruct (rstrip_prefix s) as [k Hk].
  rewrite Hk at 2. rewrite length_app. lia.
Qed.

Lemma length_strip s : length (strip s) ≤ length s.
Proof.
  unfold strip. etrans; [apply length_rstrip | apply length_lstrip].
Qed.

Lemma lstrip_no_lead s : no_lead (lstrip s).
Proof.
  induction s as [|c s IH]; simpl; [done|].
  destruct (isspace c) eqn:E; [done|]. simpl. done.
Qed.

Lemma lstrip_id s : no_lead s → lstrip s = s.
Proof. destruct s as [|c s]; simpl; [done|]. by intros ->. Qed.

Lemma lstrip_idemp s : lstrip (lstrip s) = lstrip s.
Proof. apply lstrip_id, lstrip_no_lead. Qed.

Lemma rstrip_idemp s : rstrip (rstrip s) = rstrip s.
Proof.
  unfold rstrip. by rewrite reverse_involutive, lstrip_idemp.
Qed.

Lemma rstrip_no_lead s : no_lead s → no_lead (rstrip s).
Proof.
  intros Hs. destruct (rstrip_prefix s) as [k Hk].
  destruct (rstrip s) as [|c r]; [done|].
  rewrite Hk in Hs. done.
Qed.

Lemma strip_idemp s : strip (strip s) = strip s.
Proof.
  unfold strip.
  rewrite (lstrip_id (rstrip (lstrip s)));
    [apply rstrip_idemp | apply rstrip_no_lead, lstrip_no_lead].
Qed.

Lemma lstrip_keeps c s : c ∈ s → isspace c = false → c ∈ lstrip s.
Proof.
  intros Hin Hc. induction s as [|d s IH]; simpl; [done|].
  destruct (isspace d) eqn:E; [|done].
  apply elem_of_cons in Hin as [->|Hin]; [congruence | by apply IH].
Qed.

Lemma strip_keeps c s : c ∈ s → isspace c = false → c ∈ strip s.
Proof.
  intros Hin Hc. unfold strip, rstrip.
  apply elem_of_reverse, lstrip_keeps; [|done].
  apply elem_of_reverse, lstrip_keeps; done.
Qed.

Lemma truthy_elem c (s : str) : c ∈ s → truthy s = true.
Proof. destruct s; [by intros ?%elem_of_nil | done]. Qed.

Lemma split_not_nil sep s : split sep s ≠ [].
Proof.
  destruct s as [|c s]; simpl; [done|].
  destruct (c =? sep)%N; [done|]. by destruct (split sep s).
Qed.

(** Splitting loses nothing: joining the pieces gives the string back. *)
Lemma join_split sep s : join sep (split sep s) = s.
Proof.
  induction s as [|c s IH]; simpl; [done|].
  destruct (c =? sep)%N eqn:E.
  - apply N.eqb_eq in E as ->.
    pose proof (split_not_nil sep s) as Hne.
    destruct (split sep s) as [|p ps]; [done|].
    simpl in *. by rewrite IH.
  - pose proof (split_not_nil sep s) as Hne.
    destruct (split sep s) as [|p ps]; [done|].
    destruct ps as [|q qs]; simpl in *; by rewrite <- IH.
Qed.

Lemma length_first_piece sep s :
  length (List.hd [] (split sep s)) ≤ length s.
Proof.
  pose proof (join_split sep s) as Hj.
  pose proof (split_not_nil sep s) as Hne.
  destruct (split sep s) as [|p ps]; [done|]. simpl.
  rewrite <- Hj. destruct ps; simpl; [done|].
  rewrite length_app. lia.
Qed.

End PyStrFacts.

Import PyStrFacts.

(** ** [_clean_text] *)

Module CleanTextFacts.

Lemma strip_nil : strip [] = [].
Proof. reflexivity. Qed.

Lemma accumulate_length bound : ∀ sentences result,
  length result ≤ bound →
  length (accumulate bound result sentences) ≤ bound.
Proof.
  induction sentences as [|s rest IH]; intros result Hr; simpl; [done|].
  destruct (length (result ++ s) <? bound) eqn:E; [|done].
  apply Nat.ltb_lt in E. apply IH.
  rewrite app_assoc, length_app. simpl. lia.
Qed.

(** While the text is at least as long as the bound, the loop never gets
    to append the last sentence, so what it builds is a prefix. *)
Lemma accumulate_prefix bound text : bound ≤ length text →
  ∀ sentences result,
    sentences ≠ [] →
    result ++ join DOT sentences = text →
    accumulate bound result sentences `prefix_of` text.
Proof.
  intros Hlen. induction sentences as [|s rest IH]; intros result Hne Hj; [done|].
  simpl. destruct (length (result ++ s) <? bound) eqn:E.
  - apply Nat.ltb_lt in E. destruct rest as [|s2 rest'].
    + simpl in Hj. rewrite Hj in E. lia.
    + apply IH; [done|]. rewrite <- Hj.
      change (join DOT (s :: s2 :: rest'))
        with (s ++ DOT :: join DOT (s2 :: rest')).
      by rewrite <- !app_assoc.
  - rewrite <- Hj. by apply prefix_app_r.
Qed.

(** The loop is greedy: it stops at the first sentence that does not fit. *)
Lemma accumulate_greedy bound : ∀ sentences result,
  ∃ k, k ≤ length sentences
    ∧ accumulate bound result sentences = result ++ dotted k sentences
    ∧ (∀ j s, j < k → sentences !! j = Some s →
         length (result ++ dotted j sentences ++ s) < bound)
    ∧ (∀ s, sentences !! k = Some s →
         bound ≤ length (result ++ dotted k sentences ++ s)).
Proof.
  induction sentences as [|s rest IH]; intros result.
  - exists 0. unfold dotted. simpl. rewrite app_nil_r.
    split_and!; [done|done|intros; lia|done].
  - simpl. destruct (length (result ++ s) <? bound) eqn:E.
    + apply Nat.ltb_lt in E.
      destruct (IH (result ++ s ++ [DOT])) as (k & Hk & Heq & Hlt & Hstop).
      exists (S k). unfold dotted in *. simpl.
      split_and!.
      * lia.
      * rewrite Heq. by rewrite <- !app_assoc.
      * intros [|j] s' Hj Hs'; simpl in *.
        -- by injection Hs' as <-.
        -- specialize (Hlt j s' ltac:(lia) Hs').
           by rewrite <- !app_assoc in Hlt |- *.
      * intros s' Hs'. specialize (Hstop s' Hs').
        by rewrite <- !app_assoc in Hstop |- *.
    + apply Nat.ltb_ge in E. exists 0. unfold dotted. simpl.
      rewrite app_nil_r. split_and!; [lia|done|intros; lia|].
      intros s' [= <-]. done.
Qed.

Lemma dotted_has_dot k s rest : 0 < k → DOT ∈ dotted k (s :: rest).
Proof.
  destruct k as [|k]; [lia|]. intros _. unfold dotted. simpl.
  rewrite !elem_of_app. left. right. by apply list_elem_of_singleton.
Qed.

Lemma normalise_short text :
  length (normalise text) ≤ max_length →
  _clean_text text = strip (normalise text).
Proof.
  intros Hlen. unfold _clean_text.
  destruct (max_length <? length (normalise text)) eqn:E; [|done].
  apply Nat.ltb_lt in E. lia.
Qed.

Lemma limit_prefix text : max_length < length text →
  ∃ kept, kept `prefix_of` text ∧ length kept ≤ max_length
          ∧ strip (limit text) = strip kept.
Proof.
  intros Hlen. unfold limit.
  set (result := accumulate max_length [] (split DOT text)).
  destruct (truthy (strip result)) eqn:E.
  - exists result. split_and!.
    + apply accumulate_prefix; [lia|apply split_not_nil|apply join_split].
    + apply accumulate_length. simpl. lia.
    + apply strip_idemp.
  - exists (take max_length text). split_and!.
    + apply prefix_take.
    + rewrite length_take. lia.
    + done.
Qed.

End CleanTextFacts.

Import CleanTextFacts.

Module CleanTextClaims.

(** C2, as stated, fails: for 600 letters without a full stop the
    normalised source is the text itself, [_clean_text] hands on its first
    500 letters only, and normalising that again does not give the
    normalised source back. *)
Lemma clean_text_drops_tail :
  let text := replicate 600 97%N in
  normalise text = text
  ∧ _clean_text text = replicate 500 97%N
  ∧ strip (normalise (_clean_text text)) ≠ strip (normalise text).
Proof.
  split_and!.
  - vm_compute. reflexivity.
  - vm_compute. reflexivity.
  - intros Heq. apply (f_equal length) in Heq. vm_compute in Heq. discriminate.
Qed.

(** C2, amended: a text whose normalised form has at most 500 characters
    is handed on whole (the normalised source, stripped); of a longer one
    only a prefix of at most 500 characters of the normalised source is
    kept, stripped, and the rest is dropped. *)
Theorem clean_text_keeps_short_text text :
  (length (normalise text) ≤ max_length →
     _clean_text text = strip (normalise text))
  ∧ (max_length < length (normalise text) →
     ∃ kept, kept `prefix_of` normalise text
             ∧ length kept ≤ max_length
             ∧ _clean_text text = strip kept).
Proof.
  split.
  - apply normalise_short.
  - intros Hlen. unfold _clean_text.
    destruct (max_length <? length (normalise text)) eqn:E.
    + by apply limit_prefix.
    + apply Nat.ltb_ge in E. lia.
Qed.

Lemma clean_text_keeps_short_text_witness :
  let text := of_string "Hello   world.  Again. " in
  length (normalise text) ≤ max_length
  ∧ _clean_text text = strip (normalise text).
Proof.
  split.
  - vm_compute. lia.
  - apply (proj1 (clean_text_keeps_short_text (of_string "Hello   world.  Again. "))).
    vm_compute. lia.
Defined.

(** C8, as stated, fails: one sentence of 600 characters with a space at
    position 500 exceeds the bound, and the result has 499 characters, not
    500; it is not the text cut at 500 either. *)
Lemma truncation_is_not_exact :
  let text := replicate 499 97%N ++ [SPACE] ++ replicate 100 97%N in
  (∃ sentence, sentence ∈ split DOT (normalise text)
               ∧ max_length < length sentence)
  ∧ length (_clean_text text) = 499
  ∧ _clean_text text ≠ take max_length (normalise text).
Proof.
  split_and!.
  - exists (replicate 499 97%N ++ [SPACE] ++ replicate 100 97%N). split.
    + vm_compute. apply list_elem_of_here.
    + vm_compute. lia.
  - vm_compute. reflexivity.
  - intros Heq. apply (f_equal length) in Heq. vm_compute in Heq. discriminate.
Qed.

(** C8, amended: the result never has more than 500 characters.  When the
    first sentence alone reaches the bound, the result is the normalised
    text cut at 500 characters and then stripped (so it can be shorter).
    Otherwise, for a text over the bound, the result is the first [k]
    sentences, each with its full stop, stripped, where [k >= 1] is the
    greedy choice: every sentence taken kept the running length under the
    bound and the next one would not. *)
Theorem clean_text_bounded text :
  let sentences := split DOT (normalise text) in
  length (_clean_text text) ≤ max_length
  ∧ (max_length ≤ length (List.hd [] sentences) →
       _clean_text text = strip (take max_length (normalise text)))
  ∧ (max_length < length (normalise text) →
     length (List.hd [] sentences) < max_length →
       ∃ k, 0 < k
         ∧ _clean_text text = strip (dotted k sentences)
         ∧ length (dotted k sentences) ≤ max_length
         ∧ (∀ j s, j < k → sentences !! j = Some s →
              length (dotted j sentences ++ s) < max_length)
         ∧ (∀ s, sentences !! k = Some s →
              max_length ≤ length (dotted k sentences ++ s))).
Proof.
  intros sentences. subst sentences.
  set (n := normalise text).
  pose proof (split_not_nil DOT n) as Hne.
  pose proof (length_first_piece DOT n) as Hfirst.
  pose proof (accumulate_greedy max_length (split DOT n) []) as Hgreedy.
  pose proof (accumulate_length max_length (split DOT n) []
                ltac:(simpl; lia)) as Hacc.
  split_and!.
  - unfold _clean_text. fold n.
    destruct (max_length <? length n) eqn:E.
    + unfold limit.
      destruct (truthy (strip (accumulate max_length [] (split DOT n)))).
      * etrans; [apply length_strip|]. etrans; [apply length_strip|]. done.
      * etrans; [apply length_strip|]. rewrite length_take. lia.
    + apply Nat.ltb_ge in E. etrans; [apply length_strip|]. done.
  - intros Hlong. unfold _clean_text. fold n.
    destruct (max_length <? length n) eqn:E.
    + unfold limit. destruct (split DOT n) as [|first rest]; [done|].
      simpl in Hlong. simpl.
      destruct (length first <? max_length) eqn:F;
        [apply Nat.ltb_lt in F; lia|].
      by rewrite strip_nil.
    + apply Nat.ltb_ge in E. rewrite take_ge; [done|lia].
  - intros Hlen Hshort.
    destruct Hgreedy as (k & Hk & Heq & Hlt & Hstop). simpl in Heq.
    assert (0 < k) as Hpos.
    { destruct k; [|lia]. destruct (split DOT n) as [|first rest]; [done|].
      specialize (Hstop first eq_refl). unfold dotted in Hstop.
      simpl in Hstop, Hshort. lia. }
    exists k. split_and!; [done| |by rewrite <- Heq|done|done].
    unfold _clean_text. fold n.
    destruct (max_length <? length n) eqn:E;
      [|apply Nat.ltb_ge in E; lia].
    unfold limit. rewrite Heq.
    destruct (split DOT n) as [|first rest] eqn:Hs; [done|].
    rewrite (truthy_elem DOT); [apply strip_idemp|].
    apply strip_keeps; [by apply dotted_has_dot | reflexivity].
Qed.

Lemma clean_text_bounded_witness :
  let text := replicate 499 97%N ++ [SPACE] ++ replicate 100 97%N in
  max_length ≤ length (List.hd [] (split DOT (normalise text)))
  ∧ _clean_text text = strip (take max_length (normalise text)).
Proof.
  split.
  - vm_compute. lia.
  - apply (proj1 (proj2 (clean_text_bounded
             (replicate 499 97%N ++ [SPACE] ++ replicate 100 97%N)))).
    vm_compute. lia.
Defined.

End CleanTextClaims.

(** ** The speech service and its route *)

Module TTSFacts.
Section TTSFacts.
Context `{Tortoise}.

Lemma keeps_ret {A} (a : A) : keeps_database (ret a).
Proof. by intros w. Qed.

Lemma keeps_raise {A} e : keeps_database (raise (A:=A) e).
Proof. by intros w. Qed.

Lemma keeps_lift {A} (r : exn + A) : keeps_database (lift r).
Proof. by intros w. Qed.

Lemma keeps_bind {A B} (m : M A) (k : A → M B) :
  keeps_database m → (∀ a, keeps_database (k a)) → keeps_database (bind m k).
Proof.
  intros Hm Hk w. unfold bind. specialize (Hm w).
  destruct (m w) as [[e|a] w1]; simpl in *; [done|].
  by rewrite Hk.
Qed.

Lemma keeps_try {A} (m : M A) (h : exn → M A) :
  keeps_database m → (∀ e, keeps_database (h e)) →
  keeps_database (try_except m h).
Proof.
  intros Hm Hh w. unfold try_except. specialize (Hm w).
  destruct (m w) as [[e|a] w1]; simpl in *; [|done].
  by rewrite Hh.
Qed.

Lemma keeps_call chunk preset temperature :
  keeps_database (call_tts_with_preset chunk preset temperature).
Proof.
  intros w. unfold call_tts_with_preset.
  destruct (tts_module w) as [e|self]; [done|].
  destruct (tts self) as [model|]; [|done].
  by destruct (tts_with_preset model chunk preset temperature).
Qed.

Lemma keeps_synthesise text_chunks preset temperature : ∀ audio_chunks,
  keeps_database (synthesise_chunks text_chunks preset temperature audio_chunks).
Proof.
  induction text_chunks as [|chunk rest IH]; intros acc; simpl.
  - apply keeps_ret.
  - destruct (negb (truthy (strip chunk))); [apply IH|].
    apply keeps_bind; [apply keeps_call|]. intros gen. apply IH.
Qed.

Lemma keeps_text_to_speech self text voice preset temperature :
  keeps_database (text_to_speech self text voice preset temperature).
Proof.
  unfold text_to_speech.
  destruct (negb (is_available self)); [apply keeps_ret|].
  apply keeps_try; [|intros; apply keeps_ret].
  unfold text_to_speech_try.
  destruct (negb (truthy (strip (_clean_text text)))); [apply keeps_ret|].
  apply keeps_bind; [apply keeps_lift|]. intros text_chunks.
  apply keeps_bind; [apply keeps_synthesise|]. intros [|a l]; [apply keeps_ret|].
  apply keeps_bind; [apply keeps_lift|]. intros; apply keeps_ret.
Qed.

(** The route never writes to the database: in particular the table
    [tts_cache] is neither read nor written. *)
Lemma keeps_generate_tts request : keeps_database (generate_tts request).
Proof.
  unfold generate_tts. apply keeps_try.
  - unfold generate_tts_try. apply keeps_bind.
    + intros w. unfold get_tts_service. by destruct (tts_module w).
    + intros [service|]; [|apply keeps_raise].
      repeat (case_match; [apply keeps_raise|]).
      apply keeps_bind; [apply keeps_text_to_speech|].
      intros audio. case_match; [apply keeps_raise|apply keeps_ret].
  - intros e. destruct e; apply keeps_raise.
Qed.

(** Every chunk that contributes audio cost one call of the adapter. *)
Lemma synthesise_counts text_chunks preset temperature :
  ∀ audio_chunks w result w',
    synthesise_chunks text_chunks preset temperature audio_chunks w
      = (inr result, w') →
    length result + length (adapter_calls w)
      = length audio_chunks + length (adapter_calls w').
Proof.
  induction text_chunks as [|chunk rest IH]; intros acc w result w' Hrun;
    simpl in Hrun.
  - unfold ret in Hrun. by simplify_eq.
  - destruct (negb (truthy (strip chunk))); [by apply IH|].
    unfold bind in Hrun.
    destruct (call_tts_with_preset chunk preset temperature w)
      as [[e|gen] w1] eqn:Hcall; [done|].
    apply IH in Hrun. rewrite length_app in Hrun. simpl in Hrun.
    assert (length (adapter_calls w1) = S (length (adapter_calls w))) as Hw1.
    { unfold call_tts_with_preset in Hcall.
      destruct (tts_module w) as [e|self]; [done|].
      destruct (tts self) as [model|]; [|done].
      destruct (tts_with_preset model chunk preset temperature).
      simplify_eq. simpl. rewrite length_app. simpl. lia. }
    lia.
Qed.

Lemma text_to_speech_try_calls text voice preset temperature w audio w' :
  text_to_speech_try text voice preset temperature w = (inr (Some audio), w') →
  length (adapter_calls w) < length (adapter_calls w').
Proof.
  unfold text_to_speech_try.
  destruct (negb (truthy (strip (_clean_text text)))); [done|].
  unfold bind, lift.
  destruct (split_and_recombine_text (_clean_text text)) as [e|text_chunks];
    [done|].
  destruct (synthesise_chunks text_chunks preset temperature [] w)
    as [[e|audio_chunks] w1] eqn:Hloop; [done|].
  apply synthesise_counts in Hloop. simpl in Hloop.
  destruct audio_chunks as [|a l]; [done|].
  simpl in Hloop.
  destruct (_audio_to_bytes _) as [e|b]; [done|].
  unfold ret. intros [= _ <-]. lia.
Qed.

Lemma text_to_speech_calls self text voice preset temperature w audio w' :
  text_to_speech self text voice preset temperature w = (inr (Some audio), w') →
  length (adapter_calls w) < length (adapter_calls w').
Proof.
  unfold text_to_speech.
  destruct (negb (is_available self)); [done|].
  unfold try_except.
  destruct (text_to_speech_try text voice preset temperature w)
    as [[e|r] w1] eqn:Htry; [done|].
  intros [= -> ->]. by eapply text_to_speech_try_calls.
Qed.

(** The service catches whatever its body raises. *)
Lemma text_to_speech_returns self text voice preset temperature w :
  ∃ audio w', text_to_speech self text voice preset temperature w
              = (inr audio, w').
Proof.
  unfold text_to_speech.
  destruct (negb (is_available self)); [by eexists _, _|].
  unfold try_except.
  destruct (text_to_speech_try text voice preset temperature w)
    as [[e|r] w1]; by eexists _, _.
Qed.

(** A request answered with audio went through the adapter. *)
Lemma generate_tts_ok_calls request w r w' :
  generate_tts request w = (r, w') →
  status_of r = 200%Z →
  length (adapter_calls w) < length (adapter_calls w').
Proof.
  unfold generate_tts, try_except.
  destruct (generate_tts_try request w) as [[e|audio] w1] eqn:Htry.
  - destruct e; unfold raise; intros [= <- <-]; simpl; try done.
    intros ->. exfalso. revert Htry.
    unfold generate_tts_try, bind, get_tts_service.
    destruct (tts_module w) as [e|service]; [by intros [=]|].
    repeat (case_match; [by intros [=]|]).
    destruct (text_to_speech_returns service (request_text request)
                (request_voice request) (request_preset request)
                default_temperature w) as (a & w2 & ->).
    case_match; by intros [=].
  - intros [= <- <-] _. revert Htry.
    unfold generate_tts_try, bind, get_tts_service.
    destruct (tts_module w) as [e|service]; [by intros [=]|].
    repeat (case_match; [by intros [=]|]).
    destruct (text_to_speech_returns service (request_text request)
                (request_voice request) (request_preset request)
                default_temperature w) as (a & w2 & Hcall).
    rewrite Hcall.
    case_match; [by intros [=]|].
    intros [= _ <-]. destruct a as [b|]; [|done].
    by eapply text_to_speech_calls.
Qed.

End TTSFacts.
End TTSFacts.

Import TTSFacts.

Module TTSClaims.
Section TTSClaims.
Context `{Tortoise}.

Lemma is_available_spec self :
  is_available self = true ↔ TORTOISE_AVAILABLE = true ∧ is_Some (tts self).
Proof.
  unfold is_available. rewrite andb_true_iff, bool_decide_eq_true. done.
Qed.

(** C10: [text_to_speech] always returns, never raises, and its result is
    audio bytes or [None]; it is [None] when the engine is unavailable,
    when the cleaned text is empty, and when anything inside its [try]
    raises, so these causes give the same result. *)
Theorem text_to_speech_total self text voice preset temperature w :
  ∃ audio w',
    text_to_speech self text voice preset temperature w = (inr audio, w')
    ∧ (is_available self = false → audio = None ∧ w' = w)
    ∧ (strip (_clean_text text) = [] → audio = None)
    ∧ (∀ e w1, text_to_speech_try text voice preset temperature w = (inl e, w1) →
         audio = None).
Proof.
  unfold text_to_speech.
  destruct (is_available self) eqn:Havail; simpl.
  - unfold try_except.
    destruct (text_to_speech_try text voice preset temperature w)
      as [[e|r] w1] eqn:Htry.
    + exists None, w1. unfold ret. split_and!; done.
    + exists r, w1. split_and!; [done|done| |done].
      intros Hblank. revert Htry. unfold text_to_speech_try.
      rewrite Hblank. simpl. unfold ret. by intros [= <- _].
  - exists None, w. unfold ret. split_and!; done.
Qed.

(** C5, amended: the availability test comes first.  Without an
    available service every request is answered 503, whatever its text.
    With one, a text that is empty after stripping and a text of more
    than 1000 characters are answered 400, and a request whose synthesis
    yields no audio is answered 500. *)
Theorem generate_tts_status request w :
  let r := (generate_tts request w).1 in
  (service_available w = false → status_of r = 503%Z)
  ∧ (service_available w = true →
       (strip (request_text request) = [] → status_of r = 400%Z)
     ∧ (1000 < length (request_text request) → status_of r = 400%Z)
     ∧ (strip (request_text request) ≠ [] →
        length (request_text request) ≤ 1000 →
        ∀ service audio w',
          tts_module w = inr service →
          text_to_speech service (request_text request)
            (request_voice request) (request_preset request)
            default_temperature w = (inr audio, w') →
          no_audio audio = true →
          status_of r = 500%Z)).
Proof.
  unfold generate_tts, try_except, generate_tts_try, bind, get_tts_service,
    service_available.
  destruct (tts_module w) as [e|service] eqn:Hmod; simpl.
  { split; [done|]. intros [=]. }
  destruct (is_available service) eqn:Havail; simpl.
  2: { split; [done|]. intros [=]. }
  split; [intros [=]|]. intros _.
  destruct (length (strip (request_text request)) =? 0) eqn:Hblank.
  { apply Nat.eqb_eq in Hblank. split_and!; [done| |].
    - destruct (1000 <? length (request_text request)); done.
    - intros Hne. by apply nil_length_inv in Hblank. }
  apply Nat.eqb_neq in Hblank.
  destruct (1000 <? length (request_text request)) eqn:Hlong.
  { apply Nat.ltb_lt in Hlong. split_and!; [|done|intros; lia].
    intros Hs. by rewrite Hs in Hblank. }
  apply Nat.ltb_ge in Hlong. split_and!.
  - intros Hs. by rewrite Hs in Hblank.
  - intros; lia.
  - intros _ _ service' audio w' [= <-] Hcall Hnone.
    rewrite Hcall. by rewrite Hnone.
Qed.

(** C1, on two identical requests: whenever the second one is answered
    with audio it called the synthesis adapter again, and the table
    [tts_cache] is what it was before the first request; nothing is
    looked up in it and nothing is stored. *)
Theorem second_call_synthesises_again request w r1 w1 r2 w2 :
  generate_tts request w = (r1, w1) →
  generate_tts request w1 = (r2, w2) →
  status_of r2 = 200%Z →
  length (adapter_calls w1) < length (adapter_calls w2)
  ∧ tts_cache (database w2) = tts_cache (database w).
Proof.
  intros H1 H2 Hok. split.
  - by eapply generate_tts_ok_calls.
  - pose proof (keeps_generate_tts request w) as K1.
    pose proof (keeps_generate_tts request w1) as K2.
    rewrite H1 in K1. rewrite H2 in K2. simpl in *. congruence.
Qed.

End TTSClaims.

Import Fixture.

Lemma text_to_speech_total_witness :
  ∃ w', @text_to_speech counting_engine unloaded_service (of_string "Hello.")
          (of_string "random") (of_string "fast") default_temperature ready_world
        = (inr None, w').
Proof.
  destruct (@text_to_speech_total counting_engine unloaded_service
              (of_string "Hello.") (of_string "random") (of_string "fast")
              default_temperature ready_world)
    as (audio & w' & Hrun & Hunavailable & _).
  exists w'. rewrite Hrun.
  destruct (Hunavailable eq_refl) as [-> _]. reflexivity.
Defined.

(** C5, as stated, fails: the empty text is answered 503, not 400, when
    the service could not be imported. *)
Lemma empty_text_without_service_is_503 :
  request_text empty_request = []
  ∧ status_of (@generate_tts counting_engine empty_request no_service_world).1
    = 503%Z
  ∧ status_of (@generate_tts counting_engine empty_request no_service_world).1
    ≠ 400%Z.
Proof. split_and!; [reflexivity | reflexivity | discriminate]. Qed.

Lemma generate_tts_status_witness :
  status_of (@generate_tts counting_engine empty_request ready_world).1 = 400%Z
  ∧ status_of (@generate_tts counting_engine empty_request no_service_world).1
    = 503%Z.
Proof.
  split.
  - apply (proj1 (proj2 (@generate_tts_status counting_engine empty_request
                           ready_world) eq_refl)).
    reflexivity.
  - apply (proj1 (@generate_tts_status counting_engine empty_request
                    no_service_world)).
    reflexivity.
Defined.

Lemma second_call_synthesises_again_witness :
  let w1 := (@generate_tts counting_engine hello ready_world).2 in
  let w2 := (@generate_tts counting_engine hello w1).2 in
  length (adapter_calls w1) < length (adapter_calls w2)
  ∧ tts_cache (database w2) = tts_cache (database ready_world).
Proof.
  apply (@second_call_synthesises_again counting_engine hello ready_world
           (@generate_tts counting_engine hello ready_world).1 _
           (@generate_tts counting_engine hello
              (@generate_tts counting_engine hello ready_world).2).1 _).
  - vm_compute. reflexivity.
  - vm_compute. reflexivity.
  - vm_compute. reflexivity.
Defined.

(** The two identical requests, run: both are answered 200, the adapter is
    called once for each, and the cache table stays empty. *)
Lemma two_identical_requests_run :
  let '(r1, w1) := @generate_tts counting_engine hello ready_world in
  let '(r2, w2) := @generate_tts counting_engine hello w1 in
  status_of r1 = 200%Z ∧ status_of r2 = 200%Z
  ∧ adapter_calls w2 = [(of_string "Hello.", of_string "fast");
                        (of_string "Hello.", of_string "fast")]
  ∧ tts_cache (database w2) = [].
Proof. vm_compute. done. Qed.

End TTSClaims.

(** ** Books: upload, pages and the reading position *)

Module BookFacts.
Section BookFacts.
Context `{Tortoise} `{Readers} `{Platform}.

(** A retained page carries the number of the page object it came from:
    its index in the container, counted from one. *)
Lemma collect_pages_numbers texts : ∀ page_num p,
  p ∈ collect_pages page_num texts →
  ∃ i, texts !! i = Some (content p) ∧ page_number p = page_num + i + 1.
Proof.
  induction texts as [|text rest IH]; intros page_num p Hin; simpl in Hin.
  - by apply elem_of_nil in Hin.
  - destruct (truthy (strip text)).
    + apply elem_of_cons in Hin as [->|Hin].
      * exists 0. simpl. split; [done|lia].
      * destruct (IH _ _ Hin) as (i & Hi & Hn).
        exists (S i). simpl. split; [done|lia].
    + destruct (IH _ _ Hin) as (i & Hi & Hn).
      exists (S i). simpl. split; [done|lia].
Qed.

(** Without blank pages the numbers are [1..N]. *)
Lemma collect_pages_no_blank texts : ∀ page_num,
  Forall (λ text, truthy (strip text) = true) texts →
  page_number <$> collect_pages page_num texts
    = seq (page_num + 1) (length texts).
Proof.
  induction texts as [|text rest IH]; intros page_num Hall; simpl; [done|].
  apply Forall_cons in Hall as [-> Hall]. simpl. f_equal.
  by rewrite IH.
Qed.

(** [get_book_content] indexes the stored list: page [k] of the request
    is the [k]-th retained page, whatever number that page carries. *)
Lemma get_book_content_page book_id key row meta (page : Z) p w :
  uuid_UUID book_id = Some key →
  books (database w) !! key = Some row →
  file_type row = of_string "pdf" →
  metadata row = Some meta →
  pages meta !! Z.to_nat (page - 1) = Some p →
  (1 ≤ page)%Z →
  Books.get_book_content book_id None (Some page) w
    = (inr (Books.PageContent p), w).
Proof.
  intros Hkey Hrow Htype Hmeta Hp Hpos.
  unfold Books.get_book_content, try_except, Books.get_book_content_try.
  rewrite Hkey. unfold bind, get_database. rewrite Hrow, Htype, Hmeta. simpl.
  apply lookup_lt_Some in Hp as Hlt.
  destruct (page <? 1)%Z eqn:E1; [apply Z.ltb_lt in E1; lia|].
  destruct (Z.of_nat (length (pages meta)) <? page)%Z eqn:E2;
    [apply Z.ltb_lt in E2; lia|].
  simpl. by rewrite Hp.
Qed.

Lemma process_uploaded_file_error table file_content name e :
  process_uploaded_file table file_content name = inl e →
  ∀ code detail, e ≠ HTTPException code detail.
Proof.
  unfold process_uploaded_file. intros Hrun code detail ->.
  repeat case_match; simplify_eq.
Qed.

(** The four tests of [upload_book] are its only source of a 400. *)
Lemma upload_book_400_iff file w :
  status_of (Books.upload_book file w).1 = 400%Z ↔
  match Books.filename file with
  | None => True
  | Some name =>
      name = []
      ∨ supported (file_ext name) = false
      ∨ Books.file_bytes file = []
      ∨ (Books.MAX_UPLOAD < Z.of_nat (length (Books.file_bytes file)))%Z
  end.
Proof.
  unfold Books.upload_book, try_except, Books.upload_book_try.
  destruct (Books.filename file) as [name|]; [|done].
  destruct name as [|c name]; simpl; [by split; [left|]|].
  destruct (supported (file_ext (c :: name))) eqn:Hext; simpl;
    [|by split; [right; left|]].
  destruct (Books.file_bytes file) as [|b content] eqn:Hbytes; simpl;
    [by split; [do 2 right; left|]|].
  destruct (Books.MAX_UPLOAD <? _)%Z eqn:Hbig; simpl.
  { apply Z.ltb_lt in Hbig. split; [|done]. intros _. do 3 right. done. }
  apply Z.ltb_ge in Hbig.
  assert (∀ s : Z, s = 200%Z ∨ s = 500%Z →
            s = 400%Z ↔ c :: name = [] ∨ true = false ∨ b :: content = []
              ∨ (Books.MAX_UPLOAD < Z.of_nat (length (b :: content)))%Z)
    as Hrest.
  { intros s Hs. split; [intros ->; destruct Hs; done|].
    intros [?|[?|[?|?]]]; try done. simpl in *. lia. }
  apply Hrest.
  unfold bind, get_database, lift.
  destruct (process_uploaded_file _ _ _) as [e|book_data] eqn:Hrun.
  - pose proof (process_uploaded_file_error _ _ _ _ Hrun) as Hne.
    destruct e; simpl; try by right. by destruct (Hne status_code detail).
  - unfold Books.insert_book, bind, get_database.
    destruct (books (database w) !! data_id book_data); simpl;
      [by right | by left].
Qed.

End BookFacts.
End BookFacts.

Import BookFacts.

Module BookClaims.
Section BookClaims.
Context `{Tortoise} `{Readers} `{Platform}.

(** C3, on an unknown book: for a well-formed identifier that no book
    carries, [update_reading_position] never answers 404.  The 404 it
    raises is caught by its own [except Exception] and sent as 500; the
    request is answered 200 when the driver does not report zero rows,
    and 500 as well when [database.func] cannot be read. *)
Theorem update_reading_position_unknown_book book_id key position w :
  uuid_UUID book_id = Some key →
  books (database w) !! key = None →
  let r := (Books.update_reading_position book_id position w).1 in
  status_of r ≠ 404%Z
  ∧ status_of r
    = (if database_has_func && negb (Books.is_zero (execute_result 0))
       then 200 else 500)%Z.
Proof.
  intros Hkey Hnone.
  unfold Books.update_reading_position, try_except,
    Books.update_reading_position_try, Books.database_func_now.
  rewrite Hkey.
  destruct database_has_func; simpl; [|done].
  unfold bind, get_database, Books.execute_update_book. simpl.
  unfold bind, get_database. rewrite Hnone. simpl.
  by destruct (Books.is_zero (execute_result 0)).
Qed.

(** When the [Database] object has no attribute [func], the route
    answers 500 for every well-formed identifier, known or not. *)
Lemma update_reading_position_without_func book_id key position w :
  uuid_UUID book_id = Some key →
  database_has_func = false →
  status_of (Books.update_reading_position book_id position w).1 = 500%Z.
Proof.
  intros Hkey Hfunc.
  unfold Books.update_reading_position, try_except,
    Books.update_reading_position_try, Books.database_func_now.
  by rewrite Hkey, Hfunc.
Qed.

(** With a [func] attribute and a driver that reports the rows, a known
    book gets the position and the time of the update. *)
Lemma update_reading_position_known book_id key row position w :
  uuid_UUID book_id = Some key →
  books (database w) !! key = Some row →
  database_has_func = true →
  Books.is_zero (execute_result 1) = false →
  ∃ w', Books.update_reading_position book_id position w = (inr tt, w')
        ∧ books (database w') !! key
          = Some (Books.set_position position (now (database w)) row).
Proof.
  intros Hkey Hrow Hfunc Hres.
  unfold Books.update_reading_position, try_except,
    Books.update_reading_position_try, Books.database_func_now.
  rewrite Hkey, Hfunc.
  unfold bind, get_database, Books.execute_update_book. simpl.
  unfold bind, get_database. rewrite Hrow. simpl. rewrite Hres.
  eexists. split; [done|]. simpl. apply lookup_insert_eq.
Qed.

(** C6, on a name without extension: a file called [pdf], which has no
    dot, passes the extension test, so a non-empty upload under that
    name is not answered 400. *)
Theorem upload_accepts_bare_pdf_name b w :
  (DOT ∉ of_string "pdf")
  ∧ status_of (Books.upload_book (Fixture.bare_pdf_name b) w).1 ≠ 400%Z.
Proof.
  split.
  - simpl. rewrite !elem_of_cons, elem_of_nil. intros [?|[?|[?|?]]]; done.
  - rewrite upload_book_400_iff. simpl.
    intros [Hn|[Hn|[Hn|Hn]]]; vm_compute in Hn; discriminate.
Qed.

End BookClaims.

Import Fixture.

Lemma update_reading_position_unknown_book_witness :
  status_of (@Books.update_reading_position counting_engine rowcount_platform
               unknown_id [] ready_world).1 = 500%Z.
Proof.
  apply (proj2 (@update_reading_position_unknown_book counting_engine
                  rowcount_platform unknown_id 7%N [] ready_world
                  eq_refl eq_refl)).
Defined.

(** C4, on a PDF with a blank second page: the two retained pages are
    numbered 1 and 3, the page index lists them so with a total of 2,
    a request for page 2 returns the page numbered 3, and a request for
    page 3 is answered 404. *)
Theorem blank_page_breaks_numbering :
  let texts := [of_string "a"; of_string " "; of_string "b"] in
  let '(r, w) := @Books.upload_book counting_engine form_feed_readers
                   rowcount_platform three_page_pdf ready_world in
  let get := λ page, (@Books.get_book_content counting_engine rowcount_platform
                        (render_uuid 1%N) None page w).1 in
  page_number <$> collect_pages 0 texts = [1; 3]
  ∧ @PdfReader form_feed_readers (Books.file_bytes three_page_pdf)
    = inr {| info_title := None; info_author := None; page_texts := texts |}
  ∧ status_of r = 200%Z
  ∧ get None = inr (Books.PdfInfo [(1, 1); (3, 1)] 2)
  ∧ get (Some 2%Z)
    = inr (Books.PageContent
             {| page_number := 3; content := of_string "b"; word_count := 1 |})
  ∧ status_of (get (Some 3%Z)) = 404%Z.
Proof. vm_compute. split_and!; reflexivity. Qed.

(** The position update of a stored book, run: with the [Database] object
    of the [databases] package it is answered 500; with a [func] attribute
    it is answered 200 and the row holds the new position. *)
Lemma position_update_run :
  let stored := (@Books.upload_book counting_engine form_feed_readers
                   rowcount_platform three_page_pdf ready_world).2 in
  let position := [("page"%string, 3%Z)] in
  status_of (@Books.update_reading_position counting_engine databases_platform
               (render_uuid 1%N) position stored).1 = 500%Z
  ∧ (let '(r, w) := @Books.update_reading_position counting_engine
                      rowcount_platform (render_uuid 1%N) position stored in
     status_of r = 200%Z
     ∧ current_position <$> books (database w) !! 1%N = Some (Some position)).
Proof. vm_compute. split_and!; reflexivity. Qed.

(** The upload named [pdf], run: it is stored as a PDF book. *)
Lemma bare_pdf_name_run :
  status_of (@Books.upload_book counting_engine form_feed_readers
               rowcount_platform (bare_pdf_name Byte.x61) ready_world).1
  = 200%Z.
Proof. vm_compute. reflexivity. Qed.

End BookClaims.

(** ** Highlights *)

Module HighlightFacts.
Section HighlightFacts.
Context `{Tortoise} `{Platform}.

#[global] Instance created_asc_total : Total Highlights.created_asc.
Proof. intros a b. unfold Highlights.created_asc. lia. Qed.

#[global] Instance created_asc_trans : Transitive Highlights.created_asc.
Proof. intros a b c. unfold Highlights.created_asc. lia. Qed.

#[global] Instance created_desc_total : Total Highlights.created_desc.
Proof. intros a b. unfold Highlights.created_desc. lia. Qed.

#[global] Instance created_desc_trans : Transitive Highlights.created_desc.
Proof. intros a b c. unfold Highlights.created_desc. lia. Qed.

Lemma filter_all {A} (P : A → Prop) `{∀ x, Decision (P x)} (l : list A) :
  (∀ x, x ∈ l → P x) → filter P l = l.
Proof.
  induction l as [|x l IH]; intros Hall; [done|].
  rewrite filter_cons_True by (apply Hall; left).
  f_equal. apply IH. intros y Hy. apply Hall. by right.
Qed.

Lemma filter_none {A} (P : A → Prop) `{∀ x, Decision (P x)} (l : list A) :
  (∀ x, x ∈ l → ¬ P x) → filter P l = [].
Proof.
  induction l as [|x l IH]; intros Hall; [done|].
  rewrite filter_cons_False by (apply Hall; left).
  apply IH. intros y Hy. apply Hall. by right.
Qed.

(** The sibling route re-raises [HTTPException]: an identifier that
    matches no row is answered 404 there, when the driver reports zero
    rows. *)
Lemma update_highlight_unmatched highlight_id key update w :
  uuid_UUID highlight_id = Some key →
  (∀ row, row ∈ highlights (database w) → id row ≠ key) →
  (is_Some (Highlights.update_color update)
   ∨ is_Some (Highlights.update_note update)) →
  Books.is_zero (execute_result 0) = true →
  status_of (Highlights.update_highlight highlight_id update w).1 = 404%Z.
Proof.
  intros Hkey Hnone Hfields Hzero.
  unfold Highlights.update_highlight, try_except,
    Highlights.update_highlight_try.
  assert (filter (λ row, id row = key) (highlights (database w)) = []) as Hf.
  { apply filter_none. intros row Hrow. by apply Hnone. }
  destruct (Highlights.update_color update) as [c|],
           (Highlights.update_note update) as [n|];
    try (by destruct Hfields as [[? [=]]|[? [=]]]);
    rewrite Hkey;
    unfold bind, Highlights.execute_update_highlight, bind, get_database,
      put_database; simpl; rewrite Hf; simpl; by rewrite Hzero.
Qed.

End HighlightFacts.
End HighlightFacts.

Import HighlightFacts.

Module HighlightClaims.
Section HighlightClaims.
Context `{Tortoise} `{Platform}.

(** C7, on an unmatched identifier: for a well-formed identifier that no
    highlight carries, [delete_highlight] never answers 404.  The 404 it
    raises is caught by its own [except Exception] and sent as 500; when
    the driver does not report zero rows the request is answered 200. *)
Theorem delete_highlight_unmatched highlight_id key w :
  uuid_UUID highlight_id = Some key →
  (∀ row, row ∈ highlights (database w) → id row ≠ key) →
  let r := (Highlights.delete_highlight highlight_id w).1 in
  status_of r ≠ 404%Z
  ∧ status_of r
    = (if Books.is_zero (execute_result 0) then 500 else 200)%Z.
Proof.
  intros Hkey Hnone.
  unfold Highlights.delete_highlight, try_except,
    Highlights.delete_highlight_try.
  rewrite Hkey.
  unfold bind, Highlights.execute_delete_highlight, bind, get_database,
    put_database. simpl.
  rewrite (filter_all _ _ Hnone), Nat.sub_diag.
  by destruct (Books.is_zero (execute_result 0)).
Qed.

(** C9: for a well-formed book identifier, [get_book_highlights] returns
    exactly that book's highlights, oldest first (non-decreasing
    [created_at]); [get_all_highlights] returns all highlights, newest
    first (non-increasing [created_at]).  Neither changes the world. *)
Theorem highlight_listings_ordered book_id0 key w :
  uuid_UUID book_id0 = Some key →
  (∃ results,
      Highlights.get_book_highlights book_id0 w = (inr results, w)
      ∧ StronglySorted
          (λ a b, (Highlights.response_created_at a
                   ≤ Highlights.response_created_at b)%Z) results
      ∧ results ≡ₚ Highlights.to_response
                     <$> filter (λ row, book_id row = key)
                                (highlights (database w)))
  ∧ (∃ results,
      Highlights.get_all_highlights w = (inr results, w)
      ∧ StronglySorted
          (λ a b, (Highlights.response_created_at b
                   ≤ Highlights.response_created_at a)%Z) results
      ∧ results ≡ₚ Highlights.to_response <$> highlights (database w)).
Proof.
  intros Hkey. split.
  - eexists. split_and!.
    + unfold Highlights.get_book_highlights, try_except,
        Highlights.get_book_highlights_try.
      rewrite Hkey. reflexivity.
    + apply (StronglySorted_fmap _ Highlights.created_asc); [done|].
      apply StronglySorted_merge_sort; apply _.
    + by rewrite merge_sort_Permutation.
  - eexists. split_and!.
    + reflexivity.
    + apply (StronglySorted_fmap _ Highlights.created_desc); [done|].
      apply StronglySorted_merge_sort; apply _.
    + by rewrite merge_sort_Permutation.
Qed.

End HighlightClaims.

Import Fixture.

Lemma delete_highlight_unmatched_witness :
  status_of (@Highlights.delete_highlight counting_engine rowcount_platform
               unknown_id (with_highlights [highlight_at 1%N 2%N 10%Z])).1 = 500%Z.
Proof.
  refine (proj2 (@delete_highlight_unmatched counting_engine rowcount_platform
                   unknown_id 7%N (with_highlights [highlight_at 1%N 2%N 10%Z])
                   eq_refl _)).
  intros row Hrow. apply list_elem_of_singleton in Hrow as ->.
  simpl. lia.
Defined.

(** On the same platform the sibling route answers 404 for that
    identifier. *)
Lemma update_highlight_unmatched_run :
  status_of (@Highlights.update_highlight counting_engine rowcount_platform
               unknown_id
               {| Highlights.update_color := Some (of_string "#00ff00");
                  Highlights.update_note := None |}
               (with_highlights [highlight_at 1%N 2%N 10%Z])).1 = 404%Z.
Proof. vm_compute. reflexivity. Qed.

Lemma highlight_listings_ordered_witness :
  ∃ results,
    @Highlights.get_book_highlights counting_engine rowcount_platform
      (render_uuid 2%N) three_highlights = (inr results, three_highlights)
    ∧ StronglySorted
        (λ a b, (Highlights.response_created_at a
                 ≤ Highlights.response_created_at b)%Z) results
    ∧ results ≡ₚ @Highlights.to_response rowcount_platform
                   <$> filter (λ row, book_id row = 2%N)
                              (highlights (database three_highlights)).
Proof.
  apply (@highlight_listings_ordered counting_engine rowcount_platform
           (render_uuid 2%N) 2%N three_highlights).
  vm_compute. reflexivity.
Defined.

(** The two listings, run on three highlights created at 30, 10 and 20. *)
Lemma highlight_listings_run :
  match (@Highlights.get_book_highlights counting_engine rowcount_platform
           (render_uuid 2%N) three_highlights).1,
        (@Highlights.get_all_highlights counting_engine rowcount_platform
           three_highlights).1 with
  | inr of_book, inr all =>
      Highlights.response_created_at <$> of_book = [10; 30]%Z
      ∧ Highlights.response_created_at <$> all = [30; 20; 10]%Z
  | _, _ => False
  end.
Proof. vm_compute. split; reflexivity. Qed.

End HighlightClaims.

(** * Further properties *)

(** ** The shape of cleaned text *)

Module CleanTextShapeFacts.

Lemma tidy_weaken b s : tidy b s = true → tidy false s = true.
Proof.
  destruct s as [|c s]; simpl; [done|].
  destruct (isspace c); [|done].
  destruct b; simpl; [|done]. rewrite andb_false_r. done.
Qed.

Lemma tidy_sub_ws s : ∀ b, tidy b (sub_ws b s) = true.
Proof.
  induction s as [|c s IH]; intros b; simpl; [done|].
  destruct (isspace c) eqn:E.
  - destruct b; [apply IH|]. simpl. by rewrite IH.
  - simpl. rewrite E. apply IH.
Qed.

Lemma tidy_sub_ws_id s : ∀ b, tidy b s = true → sub_ws b s = s.
Proof.
  induction s as [|c s IH]; intros b Ht; simpl in *; [done|].
  destruct (isspace c).
  - apply andb_true_iff in Ht as [Ht Hs]. apply andb_true_iff in Ht as [Hc Hb].
    apply N.eqb_eq in Hc as ->. destruct b; [done|]. by rewrite IH.
  - by rewrite IH.
Qed.

Lemma tidy_replace_id a s : isspace a = true → a ≠ SPACE →
  ∀ b, tidy b s = true → replace a SPACE s = s.
Proof.
  intros Ha Hne. unfold replace.
  induction s as [|c s IH]; intros b Ht; simpl in *; [done|].
  destruct (c =? a)%N eqn:E.
  - apply N.eqb_eq in E as ->. rewrite Ha in Ht.
    apply andb_true_iff in Ht as [Ht _]. apply andb_true_iff in Ht as [Hc _].
    by apply N.eqb_eq in Hc.
  - f_equal. destruct (isspace c).
    + apply andb_true_iff in Ht as [_ Hs]. by eapply IH.
    + by eapply IH.
Qed.

(** After [re.sub] the two [replace] calls change nothing. *)
Lemma normalise_is_re_sub text : normalise text = re_sub_ws text.
Proof.
  unfold normalise, re_sub_ws.
  rewrite (tidy_replace_id NEWLINE _ eq_refl ltac:(done) false (tidy_sub_ws _ _)).
  by rewrite (tidy_replace_id TAB _ eq_refl ltac:(done) false (tidy_sub_ws _ _)).
Qed.

Lemma normalise_tidy text : tidy false (normalise text) = true.
Proof. rewrite normalise_is_re_sub. apply tidy_sub_ws. Qed.

Lemma normalise_id s : tidy false s = true → normalise s = s.
Proof.
  intros Ht. rewrite normalise_is_re_sub. by apply tidy_sub_ws_id.
Qed.

Lemma tidy_app_l p k : ∀ b, tidy b (p ++ k) = true → tidy b p = true.
Proof.
  induction p as [|c p IH]; intros b Ht; simpl in *; [done|].
  destruct (isspace c).
  - apply andb_true_iff in Ht as [-> Hs]. simpl. by apply IH.
  - by apply IH.
Qed.

Lemma tidy_app_r k s : ∀ b, tidy b (k ++ s) = true → tidy false s = true.
Proof.
  induction k as [|c k IH]; intros b Ht; simpl in *.
  - by eapply tidy_weaken.
  - destruct (isspace c).
    + apply andb_true_iff in Ht as [_ Hs]. by eapply IH.
    + by eapply IH.
Qed.

Lemma tidy_prefix p s : p `prefix_of` s → tidy false s = true → tidy false p = true.
Proof. intros [k ->]. apply tidy_app_l. Qed.

Lemma tidy_lstrip s : tidy false s = true → tidy false (lstrip s) = true.
Proof.
  destruct (lstrip_suffix s) as [k Hk]. rewrite Hk at 1. apply tidy_app_r.
Qed.

Lemma tidy_rstrip s : tidy false s = true → tidy false (rstrip s) = true.
Proof.
  destruct (rstrip_prefix s) as [k Hk]. rewrite Hk at 1. apply tidy_app_l.
Qed.

Lemma tidy_strip s : tidy false s = true → tidy false (strip s) = true.
Proof. intros Ht. by apply tidy_rstrip, tidy_lstrip. Qed.

Lemma strip_trimmed s : trimmed (strip s).
Proof.
  split.
  - apply rstrip_no_lead, lstrip_no_lead.
  - unfold strip, rstrip. rewrite reverse_involutive. apply lstrip_no_lead.
Qed.

Lemma strip_id s : trimmed s → strip s = s.
Proof.
  intros [Hl Hr]. unfold strip, rstrip.
  rewrite (lstrip_id s Hl), (lstrip_id _ Hr). apply reverse_involutive.
Qed.

Lemma length_sub_ws s : ∀ b, length (sub_ws b s) ≤ length s.
Proof.
  induction s as [|c s IH]; intros b; simpl; [done|].
  pose proof (IH true). pose proof (IH false).
  destruct (isspace c); [destruct b|]; simpl; lia.
Qed.

End CleanTextShapeFacts.

Import CleanTextShapeFacts.

Module CleanTextExtras.

Lemma tidy_spaces s : ∀ b, tidy b s = true →
  ∀ c, c ∈ s → isspace c = true → c = SPACE.
Proof.
  induction s as [|d s IH]; intros b Ht c Hin Hc; simpl in Ht.
  - by apply elem_of_nil in Hin.
  - apply elem_of_cons in Hin as [->|Hin].
    + rewrite Hc in Ht. apply andb_true_iff in Ht as [Ht _].
      apply andb_true_iff in Ht as [Hd _]. by apply N.eqb_eq in Hd.
    + destruct (isspace d).
      * apply andb_true_iff in Ht as [_ Hs]. by eapply IH.
      * by eapply IH.
Qed.

Lemma tidy_no_double s : ∀ b i, tidy b s = true →
  s !! i = Some SPACE → s !! S i ≠ Some SPACE.
Proof.
  induction s as [|d s IH]; intros b i Ht Hi; [done|].
  simpl in Ht. destruct i as [|i]; simpl in *.
  - injection Hi as ->. change (isspace SPACE) with true in Ht.
    apply andb_true_iff in Ht as [_ Hs].
    destruct s as [|e s]; [done|]. simpl. intros [= ->].
    simpl in Hs. change (isspace SPACE) with true in Hs.
    simpl in Hs. done.
  - destruct (isspace d).
    + apply andb_true_iff in Ht as [_ Hs]. by eapply IH.
    + by eapply IH.
Qed.

Lemma limit_source text : max_length < length text →
  ∃ kept, kept `prefix_of` text ∧ limit text = strip kept ∨
          kept `prefix_of` text ∧ limit text = kept.
Proof.
  intros Hlen. unfold limit.
  destruct (truthy (strip (accumulate max_length [] (split DOT text)))).
  - eexists. left. split; [|done].
    apply accumulate_prefix; [lia|apply split_not_nil|apply join_split].
  - eexists. right. split; [apply prefix_take|done].
Qed.

Lemma clean_text_tidy text : tidy false (_clean_text text) = true.
Proof.
  unfold _clean_text. apply tidy_strip.
  pose proof (normalise_tidy text) as Hn.
  destruct (max_length <? length (normalise text)) eqn:E; [|done].
  apply Nat.ltb_lt in E.
  destruct (limit_source _ E) as [kept [[Hp ->]|[Hp ->]]].
  - apply tidy_strip. by eapply tidy_prefix.
  - by eapply tidy_prefix.
Qed.

Lemma clean_text_length text : length (_clean_text text) ≤ max_length.
Proof.
  unfold _clean_text.
  destruct (max_length <? length (normalise text)) eqn:E.
  - unfold limit.
    destruct (truthy (strip (accumulate max_length [] (split DOT (normalise text))))).
    + etrans; [apply length_strip|]. etrans; [apply length_strip|].
      apply accumulate_length. simpl. lia.
    + etrans; [apply length_strip|]. rewrite length_take. lia.
  - apply Nat.ltb_ge in E. etrans; [apply length_strip|]. done.
Qed.

(** X1: cleaning is idempotent: text that went through [_clean_text] comes
    out of a second pass unchanged. *)
Theorem clean_text_idempotent text :
  _clean_text (_clean_text text) = _clean_text text.
Proof.
  pose proof (clean_text_tidy text) as Ht.
  pose proof (clean_text_length text) as Hl.
  assert (trimmed (_clean_text text)) as Htrim by apply strip_trimmed.
  unfold _clean_text at 1.
  rewrite (normalise_id _ Ht).
  destruct (max_length <? length (_clean_text text)) eqn:E.
  - apply Nat.ltb_lt in E. lia.
  - by apply strip_id.
Qed.

(** X2: in cleaned text every whitespace character is a plain space (so no
    newline and no tab is left), no two spaces are adjacent, there is no
    whitespace at either end, and the text is never longer than the input. *)
Theorem clean_text_shape text :
  let out := _clean_text text in
  (∀ c, c ∈ out → isspace c = true → c = SPACE)
  ∧ (∀ i, out !! i = Some SPACE → out !! S i ≠ Some SPACE)
  ∧ trimmed out
  ∧ length out ≤ length text.
Proof.
  intros out. subst out. pose proof (clean_text_tidy text) as Ht.
  split_and!.
  - by eapply tidy_spaces.
  - intros i. by eapply tidy_no_double.
  - apply strip_trimmed.
  - unfold _clean_text.
    assert (length (normalise text) ≤ length text) as Hn.
    { rewrite normalise_is_re_sub. apply length_sub_ws. }
    etrans; [apply length_strip|].
    destruct (max_length <? length (normalise text)) eqn:E; [|done].
    apply Nat.ltb_lt in E.
    destruct (limit_source _ E) as [kept [[Hp ->]|[Hp ->]]];
      apply prefix_length in Hp.
    + etrans; [apply length_strip|]. lia.
    + lia.
Qed.

End CleanTextExtras.

(** ** The synthesis loop *)

Module AssemblyFacts.
Section AssemblyFacts.
Context `{Tortoise}.

Import Assembly.

Lemma spoken_blank chunk rest :
  truthy (strip chunk) = false → spoken (chunk :: rest) = spoken rest.
Proof.
  intros Hb. unfold spoken. rewrite filter_cons_False; [done|]. by rewrite Hb.
Qed.

Lemma spoken_said chunk rest :
  truthy (strip chunk) = true → spoken (chunk :: rest) = chunk :: spoken rest.
Proof. intros Hb. unfold spoken. by rewrite filter_cons_True. Qed.

Lemma world_eta (w : World) self model :
  tts_module w = inr self → tts self = Some model →
  with_model w self model (adapter_calls w) = w.
Proof.
  destruct w as [d m calls], self as [t voices]. simpl.
  intros -> ->. reflexivity.
Qed.

(** The loop of [text_to_speech] is the fold [engine_run] over the chunks
    that are not blank; the world it leaves holds the engine state after the
    last call made and the calls in the order they were made. *)
Lemma synthesise_as_fold text_chunks preset temperature :
  ∀ audio_chunks w self model,
    tts_module w = inr self → tts self = Some model →
    synthesise_chunks text_chunks preset temperature audio_chunks w
    = (match (engine_run model (spoken text_chunks) preset temperature).1 with
       | inl e => inl e
       | inr gens => inr (audio_chunks ++ gens)
       end,
       with_model w self
         (engine_run model (spoken text_chunks) preset temperature).2
         (adapter_calls w ++
            ((λ chunk, (chunk, preset)) <$>
               take (engine_calls model (spoken text_chunks) preset temperature)
                    (spoken text_chunks)))).
Proof.
  induction text_chunks as [|chunk rest IH]; intros acc w self model Hmod Htts.
  - simpl. unfold ret. rewrite !app_nil_r. by rewrite world_eta.
  - simpl. destruct (truthy (strip chunk)) eqn:Hb; simpl.
    + rewrite (spoken_said _ _ Hb). simpl.
      unfold bind, call_tts_with_preset. rewrite Hmod, Htts.
      destruct (tts_with_preset model chunk preset temperature) as [[e|gen] model'].
      * simpl. reflexivity.
      * erewrite IH; [|reflexivity|reflexivity]. simpl.
        destruct (engine_run model' (spoken rest) preset temperature)
          as [[e|gens] model'']; simpl.
        -- unfold with_model. simpl. by rewrite <- app_assoc.
        -- unfold with_model. simpl. by rewrite <- !app_assoc.
    + rewrite (spoken_blank _ _ Hb). by apply IH.
Qed.

Lemma engine_run_ok model chunks preset temperature gens model' :
  engine_run model chunks preset temperature = (inr gens, model') →
  engine_calls model chunks preset temperature = length chunks
  ∧ length gens = length chunks.
Proof.
  revert model gens model'.
  induction chunks as [|chunk rest IH]; intros model gens model'; simpl.
  - by intros [= <- _].
  - destruct (tts_with_preset model chunk preset temperature) as [[e|gen] m1];
      [done|].
    destruct (engine_run m1 rest preset temperature) as [[e|gs] m2] eqn:Hrun;
      [done|].
    intros [= <- _]. destruct (IH _ _ _ Hrun) as [-> Hlen]. simpl.
    by rewrite Hlen.
Qed.

Lemma engine_calls_le model chunks preset temperature :
  engine_calls model chunks preset temperature ≤ length chunks.
Proof.
  revert model. induction chunks as [|chunk rest IH]; intros model; simpl; [done|].
  destruct (tts_with_preset model chunk preset temperature) as [[e|gen] m1];
    [lia|]. specialize (IH m1). lia.
Qed.

End AssemblyFacts.
End AssemblyFacts.

Import AssemblyFacts.

Module TTSExtras.
Section TTSExtras.
Context `{Tortoise}.

Import Assembly.

(** X3: with the model loaded and cleaned text that the splitter accepts,
    [text_to_speech] calls the engine on the non-blank chunks in chunk
    order, each call from the state the previous one left, and makes no
    call after the first that fails; it returns the encoding of the
    waveforms concatenated in chunk order, and [None] when a call failed,
    when no chunk was spoken or when the encoding failed.  The calls made
    are recorded in that order. *)
Theorem text_to_speech_as_fold self model text voice preset temperature w chunks :
  tts_module w = inr self →
  tts self = Some model →
  TORTOISE_AVAILABLE = true →
  _clean_text text ≠ [] →
  split_and_recombine_text (_clean_text text) = inr chunks →
  text_to_speech self text voice preset temperature w
  = (inr match (engine_run model (spoken chunks) preset temperature).1 with
         | inr (gen :: gens) =>
             match _audio_to_bytes (concat (gen :: gens)) with
             | inr audio_bytes => Some audio_bytes
             | inl _ => None
             end
         | _ => None
         end,
     with_model w self (engine_run model (spoken chunks) preset temperature).2
       (adapter_calls w ++
          ((λ chunk, (chunk, preset)) <$>
             take (engine_calls model (spoken chunks) preset temperature)
                  (spoken chunks)))).
Proof.
  intros Hmod Htts Havail Hclean Hsplit.
  unfold text_to_speech, is_available. rewrite Havail, Htts. simpl.
  unfold try_except, text_to_speech_try.
  assert (strip (_clean_text text) = _clean_text text) as ->
    by apply strip_idemp.
  destruct (_clean_text text) as [|c cleaned] eqn:Hc; [done|]. simpl.
  unfold bind, lift. rewrite Hsplit.
  rewrite (synthesise_as_fold _ _ _ _ _ _ _ Hmod Htts). simpl.
  destruct (engine_run model (spoken chunks) preset temperature)
    as [[e|gens] model']; simpl; [done|].
  destruct gens as [|gen gens]; [done|].
  destruct gens as [|gen2 gens]; simpl.
  - rewrite app_nil_r. by destruct (_audio_to_bytes gen).
  - by destruct (_audio_to_bytes _).
Qed.

(** X4: [generate_tts] answers 200, 400, 500 or 503 and nothing else; it
    answers 503 exactly when the service is not available; a 200 carries
    audio bytes that are not empty and is only given for a text that is
    not blank and has at most 1000 characters. *)
Theorem generate_tts_outcomes request w :
  let r := (generate_tts request w).1 in
  (status_of r = 200 ∨ status_of r = 400 ∨ status_of r = 500
   ∨ status_of r = 503)%Z
  ∧ (status_of r = 503%Z ↔ service_available w = false)
  ∧ (status_of r = 200%Z →
       ∃ audio, r = inr audio ∧ audio ≠ []
                ∧ strip (request_text request) ≠ []
                ∧ length (request_text request) ≤ 1000).
Proof.
  unfold generate_tts, try_except, generate_tts_try, bind, get_tts_service,
    service_available.
  destruct (tts_module w) as [e|service] eqn:Hmod; simpl.
  { split_and!; [by do 3 right|done|done]. }
  destruct (is_available service) eqn:Havail; simpl.
  2: { split_and!; [by do 3 right|done|done]. }
  destruct (length (strip (request_text request)) =? 0) eqn:Hblank; simpl.
  { split_and!; [by right; left|done|done]. }
  apply Nat.eqb_neq in Hblank.
  destruct (1000 <? length (request_text request)) eqn:Hlong; simpl.
  { split_and!; [by right; left|done|done]. }
  apply Nat.ltb_ge in Hlong.
  destruct (text_to_speech_returns service (request_text request)
              (request_voice request) (request_preset request)
              default_temperature w) as (audio & w' & ->).
  destruct audio as [[|b audio]|]; simpl.
  - split_and!; [by do 2 right; left|done|done].
  - split_and!; [by left|done|]. intros _. eexists. split_and!; [done|done| |done].
    intros Hs. by rewrite Hs in Hblank.
  - split_and!; [by do 2 right; left|done|done].
Qed.

(** X5: the voice of a request has no influence: the answer, the engine
    calls and the world after the request are the same for any two voices. *)
Theorem generate_tts_ignores_voice text voice1 voice2 preset w :
  generate_tts {| request_text := text; request_voice := voice1;
                  request_preset := preset |} w
  = generate_tts {| request_text := text; request_voice := voice2;
                    request_preset := preset |} w.
Proof. reflexivity. Qed.

(** X6: the voices route always answers, leaves the world as it is, and
    reports the service as not available exactly when a speech request
    would be answered 503; without an imported service it lists no voice. *)
Theorem voices_route_agrees request w :
  ∃ info,
    TTSInfo.get_available_voices w = (inr info, w)
    ∧ (TTSInfo.info_available info = false
       ↔ status_of (generate_tts request w).1 = 503%Z)
    ∧ (∀ e, tts_module w = inl e → TTSInfo.info_voices info = []).
Proof.
  unfold TTSInfo.get_available_voices, bind, get_tts_service.
  unfold generate_tts, try_except, generate_tts_try, bind, get_tts_service.
  destruct (tts_module w) as [e|service] eqn:Hmod; simpl.
  { eexists. split_and!; [done|done|done]. }
  eexists. split_and!; [done| |done]. simpl.
  destruct (is_available service) eqn:Havail; simpl; [|done].
  split; [done|].
  destruct (length (strip (request_text request)) =? 0); simpl; [done|].
  destruct (1000 <? length (request_text request)); simpl; [done|].
  destruct (text_to_speech_returns service (request_text request)
              (request_voice request) (request_preset request)
              default_temperature w) as (audio & w' & ->).
  by destruct audio as [[|b audio]|].
Qed.

End TTSExtras.

Import Fixture Scenario.

Lemma text_to_speech_as_fold_witness :
  (@text_to_speech splitting_engine splitting_service (of_string "a| |!b|c")
     (of_string "random") (of_string "fast") default_temperature
     splitting_world).1 = inr None
  ∧ adapter_calls
      (@text_to_speech splitting_engine splitting_service (of_string "a| |!b|c")
         (of_string "random") (of_string "fast") default_temperature
         splitting_world).2
    = [(of_string "a", of_string "fast"); (of_string "!b", of_string "fast")].
Proof.
  rewrite (@text_to_speech_as_fold splitting_engine splitting_service 0
             (of_string "a| |!b|c") (of_string "random") (of_string "fast")
             default_temperature splitting_world
             (split BAR (of_string "a| |!b|c")));
    [| reflexivity | reflexivity | reflexivity | vm_compute; discriminate
     | reflexivity].
  vm_compute. split; reflexivity.
Defined.

End TTSExtras.

(** ** The voices *)

Module VoiceExtras.
Section VoiceExtras.
Context `{Tortoise}.

Import Voices.

Lemma add_default_prefix defaults : ∀ available,
  available `prefix_of` add_default_voices available defaults.
Proof.
  induction defaults as [|voice rest IH]; intros available; simpl; [done|].
  case_bool_decide; [apply IH|].
  etrans; [|apply IH]. by apply prefix_app_r.
Qed.

Lemma add_default_contains defaults : ∀ available v,
  v ∈ defaults → v ∈ add_default_voices available defaults.
Proof.
  induction defaults as [|voice rest IH]; intros available v Hin; simpl.
  - by apply elem_of_nil in Hin.
  - apply elem_of_cons in Hin as [->|Hin].
    + case_bool_decide as Hv.
      * destruct (add_default_prefix rest available) as [k ->].
        apply elem_of_app. by left.
      * destruct (add_default_prefix rest (available ++ [voice])) as [k ->].
        rewrite !elem_of_app. left. right. by apply list_elem_of_singleton.
    + case_bool_decide; by apply IH.
Qed.

Lemma add_default_only defaults : ∀ available v,
  v ∈ add_default_voices available defaults → v ∈ available ∨ v ∈ defaults.
Proof.
  induction defaults as [|voice rest IH]; intros available v Hin; simpl in Hin.
  - by left.
  - case_bool_decide.
    + destruct (IH _ _ Hin); [by left|right; by right].
    + destruct (IH _ _ Hin) as [Hv|Hv]; [|right; by right].
      apply elem_of_app in Hv as [Hv|Hv]; [by left|].
      apply list_elem_of_singleton in Hv as ->. right. by left.
Qed.

Lemma add_default_nodup defaults : ∀ available,
  NoDup available → NoDup (add_default_voices available defaults).
Proof.
  induction defaults as [|voice rest IH]; intros available Hnd; simpl; [done|].
  case_bool_decide as Hv; [by apply IH|].
  apply IH. apply NoDup_app. split_and!; [done| |apply NoDup_singleton].
  intros x Hx ->%list_elem_of_singleton. done.
Qed.

(** X7: loading the voices.  Without a model nothing changes.  With one,
    an error while reading the voice directory leaves the single voice
    [random]; otherwise the directories found come first, in the order
    listed (the voices already there, if the directory is missing), every
    stock voice is in the list, nothing else is, and no voice is added a
    second time. *)
Theorem load_voices_spec self listing :
  (tts self = None → _load_available_voices self listing = self)
  ∧ (is_Some (tts self) →
     let loaded := _load_available_voices self listing in
     tts loaded = tts self
     ∧ match listing with
       | inl _ => available_voices loaded = [of_string "random"]
       | inr entries =>
           let found :=
             match entries with
             | Some names => (filter (λ entry, entry.2 = true) names).*1
             | None => available_voices self
             end in
           found `prefix_of` available_voices loaded
           ∧ (∀ v, v ∈ default_voices → v ∈ available_voices loaded)
           ∧ (∀ v, v ∈ available_voices loaded → v ∈ found ∨ v ∈ default_voices)
           ∧ (NoDup found → NoDup (available_voices loaded))
       end).
Proof.
  split.
  - unfold _load_available_voices. by intros ->.
  - intros [model Hmodel]. intros loaded. subst loaded.
    unfold _load_available_voices. rewrite Hmodel.
    destruct listing as [e|entries]; cbn [set_voices tts available_voices].
    + by split.
    + split; [done|]. split_and!.
      * apply add_default_prefix.
      * intros v. apply add_default_contains.
      * intros v. apply add_default_only.
      * apply add_default_nodup.
Qed.

End VoiceExtras.

Import Fixture VoiceScenario.

Lemma load_voices_spec_witness :
  let loaded := @Voices._load_available_voices counting_engine loaded_service
                  listing in
  [of_string "custom"; of_string "emma"] `prefix_of` available_voices loaded
  ∧ length (available_voices loaded) = 19.
Proof.
  destruct (proj2 (@load_voices_spec counting_engine loaded_service listing)
              (ex_intro _ 0 eq_refl)) as (_ & Hprefix & _).
  split.
  - exact Hprefix.
  - vm_compute. reflexivity.
Defined.

End VoiceExtras.

(** ** Words and pages *)

Module PageFacts.

Lemma lstrip_all s : Forall (λ c, isspace c = true) s → lstrip s = [].
Proof.
  induction 1 as [|c s Hc _ IH]; simpl; [done|]. by rewrite Hc.
Qed.

Lemma strip_all s : Forall (λ c, isspace c = true) s → strip s = [].
Proof. intros Hall. unfold strip. by rewrite lstrip_all. Qed.

Lemma strip_subset s c : c ∈ strip s → c ∈ s.
Proof.
  intros Hin. unfold strip in Hin.
  destruct (rstrip_prefix (lstrip s)) as [k2 Hk2].
  destruct (lstrip_suffix s) as [k1 Hk1].
  rewrite Hk1, Hk2. rewrite !elem_of_app. right. by left.
Qed.

(** A text that is not blank has a visible character. *)
Lemma strip_visible s :
  truthy (strip s) = true → Exists (λ c, isspace c = false) s.
Proof.
  intros Ht. pose proof (strip_trimmed s) as [Hlead _].
  destruct (strip s) as [|c r] eqn:Hs; [done|].
  apply Exists_exists. exists c. split; [|done].
  apply strip_subset. rewrite Hs. by left.
Qed.

Lemma strip_blank s :
  truthy (strip s) = false → Forall (λ c, isspace c = true) s.
Proof.
  intros Ht. apply Forall_forall. intros c Hc.
  destruct (isspace c) eqn:E; [done|].
  pose proof (strip_keeps c s Hc E) as Hin.
  by rewrite (truthy_elem _ _ Hin) in Ht.
Qed.

Lemma words_aux_blank s : Forall (λ c, isspace c = true) s → words_aux [] s = [].
Proof.
  induction 1 as [|c s Hc _ IH]; simpl; [done|]. by rewrite Hc.
Qed.

Lemma words_aux_some s : ∀ cur,
  cur ≠ [] ∨ Exists (λ c, isspace c = false) s → words_aux cur s ≠ [].
Proof.
  induction s as [|c s IH]; intros cur Hcur; simpl.
  - destruct Hcur as [Hcur|Hex]; [by destruct cur|by apply Exists_nil in Hex].
  - destruct (isspace c) eqn:E.
    + destruct cur as [|d cur]; [|done].
      apply IH. destruct Hcur as [?|Hex]; [done|].
      apply Exists_cons in Hex as [Hc|Hex]; [congruence|by right].
    + apply IH. by left.
Qed.

(** A blank text has no word; a text that is not blank has at least one. *)
Lemma split_ws_blank s : truthy (strip s) = false → split_ws s = [].
Proof. intros Ht. by apply words_aux_blank, strip_blank. Qed.

Lemma split_ws_some s : truthy (strip s) = true → 1 ≤ length (split_ws s).
Proof.
  intros Ht. pose proof (words_aux_some s [] (or_intror (strip_visible s Ht))).
  unfold split_ws. destruct (words_aux [] s); simpl; [done|lia].
Qed.


Lemma collect_pages_words texts : ∀ page_num,
  sum_list (word_count <$> collect_pages page_num texts)
  = sum_list ((λ text, length (split_ws text)) <$> texts).
Proof.
  induction texts as [|text rest IH]; intros page_num; simpl; [done|].
  destruct (truthy (strip text)) eqn:E; simpl.
  - by rewrite IH.
  - rewrite IH. by rewrite (split_ws_blank _ E).
Qed.

Lemma collect_pages_each texts : ∀ page_num,
  Forall (λ p, page_num < page_number p ≤ page_num + length texts
               ∧ texts !! (page_number p - page_num - 1) = Some (content p)
               ∧ truthy (strip (content p)) = true
               ∧ word_count p = length (split_ws (content p))
               ∧ 1 ≤ word_count p)
         (collect_pages page_num texts).
Proof.
  induction texts as [|text rest IH]; intros page_num; simpl; [done|].
  assert (Forall (λ p, page_num < page_number p ≤ page_num + S (length rest)
               ∧ (text :: rest) !! (page_number p - page_num - 1) = Some (content p)
               ∧ truthy (strip (content p)) = true
               ∧ word_count p = length (split_ws (content p))
               ∧ 1 ≤ word_count p)
            (collect_pages (S page_num) rest)) as Hrest.
  { eapply Forall_impl; [apply IH|]. simpl.
    intros p (Hn & Hlook & Hvis & Hw & Hpos). split_and!; try done; try lia.
    replace (page_number p - page_num - 1)
      with (S (page_number p - S page_num - 1)) by lia.
    done. }
  destruct (truthy (strip text)) eqn:E; [|done].
  constructor; [|done]. simpl. split_and!; try done; try lia.
  - by replace (page_num + 1 - page_num - 1) with 0 by lia.
  - by apply split_ws_some.
Qed.

Lemma collect_pages_increasing texts : ∀ page_num,
  StronglySorted lt (page_number <$> collect_pages page_num texts).
Proof.
  induction texts as [|text rest IH]; intros page_num; simpl; [constructor|].
  destruct (truthy (strip text)); [|apply IH].
  simpl. constructor; [apply IH|].
  apply Forall_fmap. eapply Forall_impl; [apply (collect_pages_each rest)|].
  simpl. intros p (Hn & _). lia.
Qed.

Lemma collect_pages_length texts : ∀ page_num,
  length (collect_pages page_num texts) ≤ length texts.
Proof.
  induction texts as [|text rest IH]; intros page_num; simpl; [done|].
  specialize (IH (S page_num)). destruct (truthy (strip text)); simpl; lia.
Qed.

End PageFacts.

Import PageFacts.

Module PdfExtras.

(** X8: the pages [_process_pdf] keeps.  Their numbers increase strictly;
    each page carries the number of the page object it was read from, its
    text is that object's text and is not blank, and it has at least one
    word; no more pages are kept than the document has; and the word total
    is the number of words of all page objects, the blank ones adding
    nothing. *)
Theorem process_pdf_pages pdf_reader file_path original_filename file_id file_size :
  let data := _process_pdf pdf_reader file_path original_filename file_id
                file_size in
  let kept := pages (data_metadata data) in
  StronglySorted lt (page_number <$> kept)
  ∧ Forall (λ p, 1 ≤ page_number p ≤ length (page_texts pdf_reader)
                 ∧ page_texts pdf_reader !! (page_number p - 1) = Some (content p)
                 ∧ truthy (strip (content p)) = true
                 ∧ 1 ≤ word_count p) kept
  ∧ length kept ≤ length (page_texts pdf_reader)
  ∧ total_words (data_metadata data)
    = sum_list ((λ text, length (split_ws text)) <$> page_texts pdf_reader)
  ∧ chapters (data_metadata data) = [].
Proof.
  simpl. split_and!.
  - apply collect_pages_increasing.
  - eapply Forall_impl; [apply (collect_pages_each _ 0)|]. simpl.
    intros p (Hn & Hlook & Hvis & Hw & Hpos). split_and!; try done; try lia.
    by replace (page_number p - 1) with (page_number p - 0 - 1) by lia.
  - apply collect_pages_length.
  - apply collect_pages_words.
  - done.
Qed.

End PdfExtras.

(** ** The book routes *)

Module BookRouteFacts.
Section BookRouteFacts.
Context `{Tortoise} `{Readers} `{Platform} `{FileStore}.

#[global] Instance upload_desc_total : Total BookQueries.upload_desc.
Proof. intros a b. unfold BookQueries.upload_desc. lia. Qed.

#[global] Instance upload_desc_trans : Transitive BookQueries.upload_desc.
Proof. intros a b c. unfold BookQueries.upload_desc. lia. Qed.


Lemma pdf_is_not_epub : bool_decide (of_string "pdf" = of_string "epub") = false.
Proof. vm_compute. reflexivity. Qed.

(** What [get_book] does, case by case. *)
Lemma get_book_run book_id0 w :
  BookQueries.get_book book_id0 w
  = (match uuid_UUID book_id0 with
     | None => inl (HTTPException 400 "Invalid book ID format")
     | Some key =>
         match books (database w) !! key with
         | None => inl (HTTPException 404 "Book not found")
         | Some row => inr (BookQueries.to_book_response key row)
         end
     end, w).
Proof.
  unfold BookQueries.get_book, try_except, BookQueries.get_book_try.
  destruct (uuid_UUID book_id0) as [key|]; [|done].
  unfold bind, get_database.
  by destruct (books (database w) !! key).
Qed.

Lemma remove_file_returns path w : BookQueries.remove_file path w = (inr tt, w).
Proof.
  unfold BookQueries.remove_file, try_except, lift, ret.
  destruct (os_path_exists path); [|done].
  by destruct (os_remove path) as [e|[]].
Qed.

End BookRouteFacts.
End BookRouteFacts.

Import BookRouteFacts.

Module BookRouteExtras.
Section BookRouteExtras.
Context `{Tortoise} `{Readers} `{Platform} `{FileStore}.


(** X10: [get_book] answers 400 for an identifier that is not a UUID, 404
    for one no book carries, and otherwise returns the stored row; it never
    changes anything. *)
Theorem get_book_outcomes book_id0 w :
  (BookQueries.get_book book_id0 w).2 = w
  ∧ (uuid_UUID book_id0 = None →
       status_of (BookQueries.get_book book_id0 w).1 = 400%Z)
  ∧ (∀ key, uuid_UUID book_id0 = Some key →
       match books (database w) !! key with
       | None => status_of (BookQueries.get_book book_id0 w).1 = 404%Z
       | Some row =>
           (BookQueries.get_book book_id0 w).1
           = inr (BookQueries.to_book_response key row)
       end).
Proof.
  rewrite get_book_run. simpl. split_and!; [done| |].
  - by intros ->.
  - intros key ->. by destruct (books (database w) !! key).
Qed.

(** X11: [delete_book].  A malformed identifier is answered 400 and an
    unknown one 404, both without any change.  For a stored book the
    answer is success whether or not the file could be removed; the row is
    gone, so that [get_book] then answers 404, the other books are
    untouched, and so are all highlights, those of the deleted book
    included. *)
Theorem delete_book_outcomes book_id0 w :
  (uuid_UUID book_id0 = None →
     BookQueries.delete_book book_id0 w
     = (inl (HTTPException 400 "Invalid book ID format"), w))
  ∧ (∀ key, uuid_UUID book_id0 = Some key →
       books (database w) !! key = None →
       BookQueries.delete_book book_id0 w
       = (inl (HTTPException 404 "Book not found"), w))
  ∧ (∀ key row, uuid_UUID book_id0 = Some key →
       books (database w) !! key = Some row →
       ∃ w', BookQueries.delete_book book_id0 w = (inr tt, w')
             ∧ books (database w') = delete key (books (database w))
             ∧ highlights (database w') = highlights (database w)
             ∧ tts_cache (database w') = tts_cache (database w)
             ∧ status_of (BookQueries.get_book book_id0 w').1 = 404%Z).
Proof.
  unfold BookQueries.delete_book, try_except, BookQueries.delete_book_try.
  split_and!.
  - by intros ->.
  - intros key -> Hnone. unfold bind, get_database. by rewrite Hnone.
  - intros key row Hkey Hrow. rewrite Hkey.
    unfold bind, get_database, put_database. rewrite Hrow. simpl.
    rewrite remove_file_returns. simpl.
    eexists. split_and!; [done|done|done|done|].
    rewrite get_book_run, Hkey. simpl. by rewrite lookup_delete_eq.
Qed.

(** X12: [get_books] lists every stored book once, newest upload first, and
    changes nothing. *)
Theorem get_books_sorted w :
  ∃ results,
    BookQueries.get_books w = (inr results, w)
    ∧ StronglySorted
        (λ a b, (BookQueries.resp_upload_date b
                 ≤ BookQueries.resp_upload_date a)%Z) results
    ∧ results ≡ₚ (λ kv, BookQueries.to_book_response kv.1 kv.2)
                   <$> map_to_list (books (database w))
    ∧ length results = size (books (database w)).
Proof.
  eexists. split_and!.
  - reflexivity.
  - apply (StronglySorted_fmap _ BookQueries.upload_desc); [done|].
    apply StronglySorted_merge_sort; apply _.
  - by rewrite merge_sort_Permutation.
  - rewrite length_fmap, merge_sort_Permutation. apply length_map_to_list.
Qed.


End BookRouteExtras.

Import Fixture Scenario.

Lemma delete_book_outcomes_witness :
  ∃ w', @BookQueries.delete_book counting_engine rowcount_platform locked_files
          (render_uuid 1%N) one_book_world = (inr tt, w')
        ∧ books (database w') = delete 1%N (books (database one_book_world))
        ∧ highlights (database w') = highlights (database one_book_world)
        ∧ tts_cache (database w') = tts_cache (database one_book_world)
        ∧ status_of (@BookQueries.get_book counting_engine rowcount_platform
                       (render_uuid 1%N) w').1 = 404%Z.
Proof.
  destruct (books (database one_book_world) !! 1%N) as [row|] eqn:Hrow;
    [|vm_compute in Hrow; discriminate].
  exact (proj2 (proj2 (@delete_book_outcomes counting_engine rowcount_platform
                         locked_files (render_uuid 1%N) one_book_world))
           1%N row eq_refl Hrow).
Defined.


End BookRouteExtras.

(** ** Reading content and keeping the position *)

Module ContentExtras.
Section ContentExtras.
Context `{Tortoise} `{Platform}.

Lemma epub_is_epub : bool_decide (of_string "epub" = of_string "epub") = true.
Proof. by apply bool_decide_eq_true_2. Qed.

(** X14: pages of a PDF book.  A page request is answered 404 exactly when
    the number is below 1 or above the number of stored pages; any other
    number returns the page at that position of the stored list, and no
    request for a page ends in 500.  The chapter selector plays no part. *)
Theorem pdf_page_request book_id0 key row meta chapter_id page w :
  uuid_UUID book_id0 = Some key →
  books (database w) !! key = Some row →
  file_type row = of_string "pdf" →
  metadata row = Some meta →
  let r := (Books.get_book_content book_id0 chapter_id (Some page) w).1 in
  (status_of r = 404%Z ↔ (page < 1 ∨ Z.of_nat (length (pages meta)) < page)%Z)
  ∧ ((1 ≤ page ≤ Z.of_nat (length (pages meta)))%Z →
       ∃ p, pages meta !! Z.to_nat (page - 1) = Some p
            ∧ Books.get_book_content book_id0 chapter_id (Some page) w
              = (inr (Books.PageContent p), w))
  ∧ status_of r ≠ 500%Z.
Proof.
  intros Hkey Hrow Htype Hmeta.
  unfold Books.get_book_content, try_except, Books.get_book_content_try.
  rewrite Hkey. unfold bind, get_database. rewrite Hrow, Htype, Hmeta. cbn -[of_string].
  rewrite pdf_is_not_epub. rewrite bool_decide_eq_true_2 by done.
  destruct (page <? 1)%Z eqn:E1; cbn -[of_string].
  { apply Z.ltb_lt in E1. split_and!; [split; [by left|done]|lia|done]. }
  apply Z.ltb_ge in E1.
  destruct (Z.of_nat (length (pages meta)) <? page)%Z eqn:E2; cbn -[of_string].
  { apply Z.ltb_lt in E2. split_and!; [split; [by right|done]|lia|done]. }
  apply Z.ltb_ge in E2.
  destruct (pages meta !! Z.to_nat (page - 1)) as [p|] eqn:Hp.
  - cbn -[of_string]. split_and!; [split; [done|lia]| |done].
    intros _. by exists p.
  - apply lookup_ge_None in Hp. lia.
Qed.

(** X15: chapters of an EPUB book.  Without a chapter selector, and also
    with the empty string as selector, the answer is the table of contents,
    one entry per stored chapter in stored order.  With a selector that is
    not empty the answer is the first chapter carrying that identifier, and
    404 exactly when no chapter carries it.  The page selector plays no
    part. *)
Theorem epub_chapter_request book_id0 key row meta page w :
  uuid_UUID book_id0 = Some key →
  books (database w) !! key = Some row →
  file_type row = of_string "epub" →
  metadata row = Some meta →
  (∀ chapter_id, chapter_id = None ∨ chapter_id = Some [] →
     Books.get_book_content book_id0 chapter_id page w
     = (inr (Books.TableOfContents
               ((λ ch, (ch_id ch, ch_title ch, ch_word_count ch))
                  <$> chapters meta)), w))
  ∧ (∀ wanted, wanted ≠ [] →
       let r := (Books.get_book_content book_id0 (Some wanted) page w).1 in
       (status_of r = 404%Z ↔ ∀ ch, ch ∈ chapters meta → ch_id ch ≠ wanted)
       ∧ ((∃ ch, ch ∈ chapters meta ∧ ch_id ch = wanted) →
            ∃ before ch after,
              chapters meta = before ++ ch :: after
              ∧ ch_id ch = wanted
              ∧ (∀ other, other ∈ before → ch_id other ≠ wanted)
              ∧ r = inr (Books.ChapterContent ch))).
Proof.
  intros Hkey Hrow Htype Hmeta.
  unfold Books.get_book_content, try_except, Books.get_book_content_try.
  rewrite Hkey. unfold bind, get_database. rewrite Hrow, Htype, Hmeta. cbn -[of_string].
  rewrite epub_is_epub. split.
  - by intros chapter_id [->| ->].
  - intros wanted Hwanted. cbn -[of_string].
    destruct wanted as [|c wanted]; [done|]. cbn -[of_string].
    induction (chapters meta) as [|ch rest IH]; cbn -[of_string].
    + split; [split; [intros _ ch Hin; by apply elem_of_nil in Hin|done]|].
      intros (ch & Hin & _). by apply elem_of_nil in Hin.
    + case_bool_decide as Hid; cbn -[of_string].
      * split.
        -- split; [done|]. intros Hall. destruct (Hall ch); [by left|done].
        -- intros _. exists [], ch, rest. split_and!; [done|done| |done].
           intros other Hin. by apply elem_of_nil in Hin.
      * destruct IH as [IH404 IHfound]. split.
        -- rewrite IH404. split.
           ++ intros Hall other [->|Hin]%elem_of_cons; [done|by apply Hall].
           ++ intros Hall other Hin. apply Hall. by right.
        -- intros (found & [->|Hin]%elem_of_cons & Hfound); [done|].
           destruct IHfound as (before & hit & after & -> & Hhit & Hbefore & Hr);
             [by exists found|].
           exists (ch :: before), hit, after. split_and!; [done|done| |done].
           intros other [->|Hother]%elem_of_cons; [done|by apply Hbefore].
Qed.

(** X16: what [update_reading_position] leaves alone.  It never touches the
    highlights, the cache table, the service or any book other than the
    one addressed, never adds or removes a book, and of the addressed book
    it can change only the position and the time of last reading. *)
Theorem update_reading_position_frame book_id0 position w :
  let w' := (Books.update_reading_position book_id0 position w).2 in
  highlights (database w') = highlights (database w)
  ∧ tts_cache (database w') = tts_cache (database w)
  ∧ tts_module w' = tts_module w
  ∧ adapter_calls w' = adapter_calls w
  ∧ (∀ other, uuid_UUID book_id0 ≠ Some other →
       books (database w') !! other = books (database w) !! other)
  ∧ (∀ key, match books (database w) !! key, books (database w') !! key with
            | Some row, Some row' =>
                title row' = title row ∧ author row' = author row
                ∧ file_path row' = file_path row
                ∧ file_type row' = file_type row
                ∧ file_size row' = file_size row
                ∧ cover_image row' = cover_image row
                ∧ upload_date row' = upload_date row
                ∧ metadata row' = metadata row
            | None, None => True
            | _, _ => False
            end).
Proof.
  unfold Books.update_reading_position, try_except,
    Books.update_reading_position_try, Books.database_func_now.
  assert (∀ key, match books (database w) !! key, books (database w) !! key with
            | Some row, Some row' =>
                title row' = title row ∧ author row' = author row
                ∧ file_path row' = file_path row
                ∧ file_type row' = file_type row
                ∧ file_size row' = file_size row
                ∧ cover_image row' = cover_image row
                ∧ upload_date row' = upload_date row
                ∧ metadata row' = metadata row
            | None, None => True
            | _, _ => False
            end) as Hsame.
  { intros key. by destruct (books (database w) !! key). }
  destruct (uuid_UUID book_id0) as [key|]; [|by split_and!].
  destruct database_has_func; simpl; [|by split_and!].
  unfold bind, get_database, Books.execute_update_book. simpl.
  unfold bind, get_database, put_database.
  destruct (books (database w) !! key) as [row|] eqn:Hrow; simpl.
  - destruct (Books.is_zero (execute_result 1)); simpl;
      (split_and!; [done|done|done|done| |]).
    all: try (intros other Hother; apply lookup_insert_ne; congruence).
    all: intros k; destruct (decide (k = key)) as [->|Hk];
      [rewrite Hrow, lookup_insert_eq; by split_and!
      |rewrite lookup_insert_ne by done; apply Hsame].
  - destruct (Books.is_zero (execute_result 0)); simpl; by split_and!.
Qed.

End ContentExtras.

Import Fixture ContentScenario.

Lemma pdf_page_request_witness :
  status_of (@Books.get_book_content counting_engine rowcount_platform
               (render_uuid 1%N) None (Some 3%Z) Scenario.one_book_world).1
  = 404%Z.
Proof.
  destruct (books (database Scenario.one_book_world) !! 1%N) as [row|] eqn:Hrow;
    [|vm_compute in Hrow; discriminate].
  destruct (metadata row) as [meta|] eqn:Hmeta;
    [|vm_compute in Hrow; injection Hrow as <-; discriminate].
  assert (file_type row = of_string "pdf" ∧ length (pages meta) = 2) as [Ht Hl].
  { vm_compute in Hrow. injection Hrow as <-. simpl in Hmeta.
    injection Hmeta as <-. split; reflexivity. }
  apply (proj1 (@pdf_page_request counting_engine rowcount_platform
                  (render_uuid 1%N) 1%N row meta None 3%Z
                  Scenario.one_book_world eq_refl Hrow Ht Hmeta)).
  right. rewrite Hl. lia.
Defined.

Lemma epub_chapter_request_witness :
  @Books.get_book_content counting_engine rowcount_platform
    (render_uuid 9%N) (Some []) None novel_world
  = (inr (Books.TableOfContents
            [(of_string "c1", of_string "One", 1);
             (of_string "c2", of_string "Two", 1)]), novel_world).
Proof.
  refine (proj1 (@epub_chapter_request counting_engine rowcount_platform
                   (render_uuid 9%N) 9%N novel _ None novel_world
                   eq_refl eq_refl eq_refl eq_refl) (Some []) _).
  by right.
Defined.

End ContentExtras.

(** ** Writing highlights *)

Module HighlightWriteExtras.
Section HighlightWriteExtras.
Context `{Tortoise} `{Platform} `{HighlightIds}.






(** X19: [delete_highlight] on a stored highlight, with a driver that
    reports the rows: the answer is success, every row with that identifier
    is gone, the other rows stay in their order, and no book is touched. *)
Theorem delete_highlight_matched highlight_id key row w :
  uuid_UUID highlight_id = Some key →
  row ∈ highlights (database w) →
  id row = key →
  (∀ n, 0 < n → Books.is_zero (execute_result n) = false) →
  ∃ w',
    Highlights.delete_highlight highlight_id w = (inr tt, w')
    ∧ highlights (database w')
      = filter (λ r, id r ≠ key) (highlights (database w))
    ∧ (∀ r, r ∈ highlights (database w') → id r ≠ key)
    ∧ books (database w') = books (database w).
Proof.
  intros Hkey Hin Hrow Hdriver.
  unfold Highlights.delete_highlight, try_except, Highlights.delete_highlight_try.
  rewrite Hkey.
  unfold bind, Highlights.execute_delete_highlight, bind, get_database,
    put_database. simpl.
  rewrite Hdriver.
  2: { pose proof (length_filter_lt (λ r, id r ≠ key) _ row Hin) as Hlt.
       apply Nat.lt_add_lt_sub_r. simpl. apply Hlt. by intros Hne. }
  simpl. eexists. split_and!; [done|done| |done].
  simpl. intros r Hr. by apply list_elem_of_filter in Hr as [Hr _].
Qed.

End HighlightWriteExtras.

Import Fixture Scenario.



Lemma delete_highlight_matched_witness :
  ∃ w',
    @Highlights.delete_highlight counting_engine rowcount_platform
      (render_uuid 12%N) three_highlights = (inr tt, w')
    ∧ length (highlights (database w')) = 2.
Proof.
  destruct (@delete_highlight_matched counting_engine rowcount_platform
              (render_uuid 12%N) 12%N (highlight_at 12%N 2%N 10%Z)
              three_highlights) as (w' & Hrun & Hrows & _).
  - vm_compute. reflexivity.
  - right. left.
  - reflexivity.
  - intros n Hn. unfold Books.is_zero. simpl.
    apply bool_decide_eq_false_2. intros [= Hz]. lia.
  - exists w'. split; [exact Hrun|]. rewrite Hrows. vm_compute. reflexivity.
Defined.

End HighlightWriteExtras.

(** ** Chapter titles *)

Module TitleExtras.

Import Titles.

Lemma heading_text_some soup tag text :
  heading_text soup tag = Some text → text ≠ [] ∧ trimmed text.
Proof.
  unfold heading_text. destruct (soup tag) as [raw|]; [|done].
  destruct (truthy (strip raw)) eqn:E; [|done].
  intros [= <-]. split; [by destruct (strip raw)|apply strip_trimmed].
Qed.

Lemma first_heading_some soup tags text :
  first_heading soup tags = Some text → text ≠ [] ∧ trimmed text.
Proof.
  induction tags as [|tag rest IH]; simpl; [done|].
  destruct (heading_text soup tag) as [t|] eqn:E; [|done].
  intros [= <-]. by eapply heading_text_some.
Qed.

(** X20: the chapter title is never empty and has no whitespace at either
    end.  A first-level heading with visible text gives the title, stripped,
    whatever the other headings are; a heading that is blank is passed
    over; and a chapter with no usable heading and no usable bold text is
    called [Untitled Chapter]. *)
Theorem extract_chapter_title_spec soup :
  let chapter_title := _extract_chapter_title soup in
  chapter_title ≠ []
  ∧ trimmed chapter_title
  ∧ (∀ text, soup "h1"%string = Some text → truthy (strip text) = true →
       chapter_title = strip text)
  ∧ ((∀ tag, tag ∈ ["h1"; "h2"; "h3"; "strong"]%string →
        heading_text soup tag = None) →
       chapter_title = of_string "Untitled Chapter").
Proof.
  unfold _extract_chapter_title. split_and!.
  - destruct (first_heading soup _) as [t|] eqn:E.
    + by eapply first_heading_some.
    + destruct (heading_text soup "strong") as [t|] eqn:E2.
      * by eapply heading_text_some.
      * vm_compute. discriminate.
  - destruct (first_heading soup _) as [t|] eqn:E.
    + by eapply first_heading_some.
    + destruct (heading_text soup "strong") as [t|] eqn:E2.
      * by eapply heading_text_some.
      * split; vm_compute; reflexivity.
  - intros text Hh1 Hvis. simpl. unfold heading_text at 1.
    by rewrite Hh1, Hvis.
  - intros Hnone. simpl.
    rewrite !Hnone; [done|..]; rewrite !elem_of_cons; auto 10.
Qed.

Lemma extract_chapter_title_spec_witness :
  _extract_chapter_title TitleScenario.titled = strip (of_string " One ").
Proof.
  apply (proj1 (proj2 (proj2 (extract_chapter_title_spec TitleScenario.titled)))).
  - reflexivity.
  - vm_compute. reflexivity.
Defined.

(** A blank first-level heading is passed over, run. *)
Lemma blank_heading_run :
  _extract_chapter_title TitleScenario.blank_h1 = of_string "Two".
Proof. vm_compute. reflexivity. Qed.

End TitleExtras.
